(** * Field-level post-quantum encryption and signing layer

    A shallow embedding of the key store, the envelope codec and the
    signer/verifier of [backend/utils/pqcrypto.js], and of the Mongoose
    encryption plugin with the two [toSafeJSON] projections
    ([backend/models/plugins/encryptionPlugin.js], [User.js], [Batch.js]).

    The JavaScript is asynchronous but strictly sequential (every call is
    awaited), so it is rendered in a state-and-exception monad over a
    [World] holding the file system, the random source and the console.
    The key directory is created when the module is loaded; what remains
    of it in the model is whether new files can be created in it.
    The cryptographic primitives (ML-KEM, ML-DSA, CryptoJS AES) and the
    JSON built-ins belong to libraries, not to this repository: they are
    the fields of the class [Library], and what is assumed of them is
    stated as explicit hypotheses where a theorem needs it. *)

From Stdlib Require Import ZArith NArith Strings.Byte Ascii String List Lia.
From stdpp Require Import base option list strings gmap.

Local Open Scope string_scope.
Set Warnings "-register-all".

(** ** JavaScript values *)

Inductive value : Type :=
| VUndefined
| VNull
| VBool (b : bool)
| VNum (n : Z)
| VStr (s : string)
| VArr (items : list value)
| VObj (props : list (string * value)).

(** [typeof v] *)
Definition typeof (v : value) : string :=
  match v with
  | VUndefined => "undefined"
  | VNull => "object"
  | VBool _ => "boolean"
  | VNum _ => "number"
  | VStr _ => "string"
  | VArr _ => "object"
  | VObj _ => "object"
  end.

(** [typeof v === 'object'] *)
Definition is_object (v : value) : bool := String.eqb (typeof v) "object".

(** Property read [o.k] on an own-property list: the first binding wins. *)
Fixpoint prop_lookup (k : string) (props : list (string * value)) : value :=
  match props with
  | [] => VUndefined
  | (k', v) :: rest => if String.eqb k k' then v else prop_lookup k rest
  end.

(** Thrown JavaScript errors, by message. *)
Inductive exn : Type := Error (msg : string).

Inductive result (A : Type) : Type :=
| Ok (a : A)
| Throw (e : exn).
Arguments Ok {A} a.
Arguments Throw {A} e.

Definition is_ok {A} (r : result A) : bool :=
  match r with Ok _ => true | Throw _ => false end.

(** ** Byte sequences and Node's hex encoding *)

Definition hex_digit (n : N) : ascii :=
  match n with
  | 0 => "0" | 1 => "1" | 2 => "2" | 3 => "3" | 4 => "4" | 5 => "5"
  | 6 => "6" | 7 => "7" | 8 => "8" | 9 => "9" | 10 => "a" | 11 => "b"
  | 12 => "c" | 13 => "d" | 14 => "e" | _ => "f"
  end%N%char.

Definition hex_of_byte (b : byte) (rest : string) : string :=
  String (hex_digit (Byte.to_N b / 16)) (String (hex_digit (Byte.to_N b mod 16)) rest).

(** [Buffer.from(bytes).toString('hex')], also CryptoJS's
    [wordArray.toString(CryptoJS.enc.Hex)]: two lower-case digits a byte. *)
Fixpoint hex_encode (bs : list byte) : string :=
  match bs with
  | [] => ""
  | b :: rest => hex_of_byte b (hex_encode rest)
  end.

Definition hex_value (c : ascii) : option N :=
  let n := N_of_ascii c in
  if ((48 <=? n) && (n <=? 57))%N then Some (n - 48)%N
  else if ((97 <=? n) && (n <=? 102))%N then Some (n - 87)%N
  else if ((65 <=? n) && (n <=? 70))%N then Some (n - 55)%N
  else None.

Definition byte_of_nibbles (hi lo : N) : byte :=
  default x00 (Byte.of_N (16 * hi + lo)).

(** [Buffer.from(s, 'hex')]: decodes pairs of hex digits and stops, without
    throwing, at the first pair that is not two hex digits (or at a lone
    trailing character). *)
Fixpoint hex_decode (s : string) : list byte :=
  match s with
  | String c1 (String c2 rest) =>
      match hex_value c1, hex_value c2 with
      | Some hi, Some lo => byte_of_nibbles hi lo :: hex_decode rest
      | _, _ => []
      end
  | _ => []
  end.

(** ** The world: file system, random source, console, module loader *)

Record file : Type := File {
  content : string;
  readable : bool;
  writable : bool
}.

Record World : Type := mkWorld {
  files : gmap string file;      (* the key directory's files *)
  dir_writable : bool;           (* may new files be created *)
  rand : nat -> list byte;       (* the system random source *)
  tick : nat;                    (* draws made so far *)
  console : list string;         (* console.error output *)
  mlkem_loadable : bool;         (* does import('.../ml-kem.js') resolve *)
  mldsa_loadable : bool          (* does import('.../ml-dsa.js') resolve *)
}.

Definition set_files (fs : gmap string file) (w : World) : World :=
  mkWorld fs (dir_writable w) (rand w) (tick w) (console w)
          (mlkem_loadable w) (mldsa_loadable w).

Definition set_tick (n : nat) (w : World) : World :=
  mkWorld (files w) (dir_writable w) (rand w) n (console w)
          (mlkem_loadable w) (mldsa_loadable w).

Definition set_console (c : list string) (w : World) : World :=
  mkWorld (files w) (dir_writable w) (rand w) (tick w) c
          (mlkem_loadable w) (mldsa_loadable w).

(** ** The monad of awaited computations *)

Definition M (A : Type) : Type := World -> result A * World.

Definition ret {A} (a : A) : M A := fun w => (Ok a, w).

Definition bind {A B} (m : M A) (k : A -> M B) : M B :=
  fun w => match m w with
           | (Ok a, w') => k a w'
           | (Throw e, w') => (Throw e, w')
           end.

Definition throw {A} (e : exn) : M A := fun w => (Throw e, w).

(** [try { m } catch (error) { h error }] *)
Definition try_catch {A} (m : M A) (h : exn -> M A) : M A :=
  fun w => match m w with
           | (Ok a, w') => (Ok a, w')
           | (Throw e, w') => h e w'
           end.

(** A library call that returns or throws. *)
Definition call {A} (r : result A) : M A := fun w => (r, w).

#[global] Instance M_ret : MRet M := @ret.
#[global] Instance M_bind : MBind M := fun A B k m => bind m k.

Definition console_error (label : string) : M unit :=
  fun w => (Ok tt, set_console (console w ++ [label]) w).

(** [fs.existsSync] *)
Definition existsSync (p : string) : M bool :=
  fun w => (Ok (bool_decide (is_Some (files w !! p))), w).

(** [fs.readFileSync(p, 'utf8')] *)
Definition readFileSync (p : string) : M string :=
  fun w => match files w !! p with
           | Some f => if readable f then (Ok (content f), w)
                       else (Throw (Error "EACCES"), w)
           | None => (Throw (Error "ENOENT"), w)
           end.

(** [fs.writeFileSync(p, s)]: an existing file keeps its permissions. *)
Definition writeFileSync (p : string) (s : string) : M unit :=
  fun w => match files w !! p with
           | Some f =>
               if writable f
               then (Ok tt, set_files (<[p := File s (readable f) true]> (files w)) w)
               else (Throw (Error "EACCES"), w)
           | None =>
               if dir_writable w
               then (Ok tt, set_files (<[p := File s true true]> (files w)) w)
               else (Throw (Error "EACCES"), w)
           end.

(** [n] fresh bytes from the system random source. *)
Definition random_bytes (n : nat) : M (list byte) :=
  fun w => (Ok (resize n x00 (rand w (tick w))), set_tick (S (tick w)) w).

(** [getMlKEM] and [getMlDSA]: the lazily imported ESM modules. *)
Definition getMlKEM : M unit :=
  fun w => if mlkem_loadable w then (Ok tt, w)
           else (Throw (Error "ERR_MODULE_NOT_FOUND"), w).

Definition getMlDSA : M unit :=
  fun w => if mldsa_loadable w then (Ok tt, w)
           else (Throw (Error "ERR_MODULE_NOT_FOUND"), w).

(** ** The libraries the code calls *)

Class Library : Type := {
  (** [process.env.PQC_KEY_STORAGE_DIR || path.join(__dirname, '..', 'keys')] *)
  KEY_STORAGE_DIR : string;
  (** [ml_kem768.keygen()], from its random seed: (publicKey, secretKey) *)
  kem_keygen : list byte -> result (list byte * list byte);
  (** [ml_kem768.encapsulate(publicKey)], from its random coins:
      (cipherText, sharedSecret) *)
  kem_encapsulate : list byte -> list byte -> result (list byte * list byte);
  (** [ml_kem768.decapsulate(cipherText, secretKey)] *)
  kem_decapsulate : list byte -> list byte -> result (list byte);
  (** [ml_dsa65.keygen()], from its random seed: (publicKey, secretKey) *)
  dsa_keygen : list byte -> result (list byte * list byte);
  (** [ml_dsa65.sign(msg, secretKey)], with the random bytes it draws *)
  dsa_sign : list byte -> list byte -> list byte -> result (list byte);
  (** [ml_dsa65.verify(sig, msg, publicKey)]: the parameters in the order
      the library declares them. The package the code imports
      (['@noble/post-quantum/ml-dsa.js'], ESM only) takes the signature
      first and the message second. *)
  dsa_verify : list byte -> list byte -> list byte -> result bool;
  (** [CryptoJS.enc.Hex.parse] *)
  Hex_parse : string -> list byte;
  (** [CryptoJS.AES.encrypt(message, key, {iv, CBC, Pkcs7}).toString()] *)
  AES_encrypt : value -> list byte -> list byte -> result string;
  (** [CryptoJS.AES.decrypt(text, key, {iv, CBC, Pkcs7})] *)
  AES_decrypt : string -> list byte -> list byte -> result (list byte);
  (** [wordArray.toString(CryptoJS.enc.Utf8)] *)
  Utf8_stringify : list byte -> result string;
  (** [JSON.stringify] on a value whose [typeof] is ['object'] *)
  JSON_stringify : value -> result string;
  (** [JSON.parse] *)
  JSON_parse : string -> result value;
  (** [Buffer.from(s, 'utf8')] on a string *)
  utf8_encode : string -> list byte;
  (** [Buffer.from(v, encoding)] on a value that is not a string *)
  Buffer_from_other : value -> result (list byte)
}.

(** [Buffer.from(v, 'utf8')] *)
Definition Buffer_from_utf8 `{Library} (v : value) : result (list byte) :=
  match v with
  | VStr s => Ok (utf8_encode s)
  | _ => Buffer_from_other v
  end.

(** [Buffer.from(v, 'hex')] *)
Definition Buffer_from_hex `{Library} (v : value) : result (list byte) :=
  match v with
  | VStr s => Ok (hex_decode s)
  | _ => Buffer_from_other v
  end.

Record KeyPair : Type := mkKeyPair {
  publicKey : list byte;
  privateKey : list byte
}.

Record Envelope : Type := mkEnvelope {
  ciphertext : string;
  encryptedData : string;
  iv : string
}.

(** ** Key store ([pqcrypto.js]) *)

Section KeyStore.
Context `{L : Library}.

(** [path.join(KEY_STORAGE_DIR, name)] *)
Definition path_join (dir name : string) : string := dir +:+ "/" +:+ name.

Definition KYBER_PRIVATE_KEY_PATH : string := path_join KEY_STORAGE_DIR "kyber_private.key".
Definition KYBER_PUBLIC_KEY_PATH : string := path_join KEY_STORAGE_DIR "kyber_public.key".
Definition DILITHIUM_PRIVATE_KEY_PATH : string := path_join KEY_STORAGE_DIR "dilithium_private.key".
Definition DILITHIUM_PUBLIC_KEY_PATH : string := path_join KEY_STORAGE_DIR "dilithium_public.key".

Definition generateKyberKeys : M KeyPair :=
  try_catch
    (_ ← getMlKEM;
     seed ← random_bytes 64;
     '(publicKey, secretKey) ← call (kem_keygen seed);
     _ ← writeFileSync KYBER_PRIVATE_KEY_PATH (hex_encode secretKey);
     _ ← writeFileSync KYBER_PUBLIC_KEY_PATH (hex_encode publicKey);
     mret (mkKeyPair publicKey secretKey))
    (fun error =>
       _ ← console_error "Error generating Kyber keys:";
       throw (Error "Failed to generate Kyber keys")).

Definition generateDilithiumKeys : M KeyPair :=
  try_catch
    (_ ← getMlDSA;
     seed ← random_bytes 32;
     '(publicKey, secretKey) ← call (dsa_keygen seed);
     _ ← writeFileSync DILITHIUM_PRIVATE_KEY_PATH (hex_encode secretKey);
     _ ← writeFileSync DILITHIUM_PUBLIC_KEY_PATH (hex_encode publicKey);
     mret (mkKeyPair publicKey secretKey))
    (fun error =>
       _ ← console_error "Error generating Dilithium keys:";
       throw (Error "Failed to generate Dilithium keys")).

Definition loadOrGenerateKyberKeys : M KeyPair :=
  try_catch
    (e1 ← existsSync KYBER_PRIVATE_KEY_PATH;
     e2 ← (if (e1 : bool) then existsSync KYBER_PUBLIC_KEY_PATH else mret false);
     if (e2 : bool) then
       priv ← readFileSync KYBER_PRIVATE_KEY_PATH;
       pub ← readFileSync KYBER_PUBLIC_KEY_PATH;
       mret (mkKeyPair (hex_decode pub) (hex_decode priv))
     else generateKyberKeys)
    (fun error =>
       _ ← console_error "Error loading Kyber keys:";
       generateKyberKeys).

Definition loadOrGenerateDilithiumKeys : M KeyPair :=
  try_catch
    (e1 ← existsSync DILITHIUM_PRIVATE_KEY_PATH;
     e2 ← (if (e1 : bool) then existsSync DILITHIUM_PUBLIC_KEY_PATH else mret false);
     if (e2 : bool) then
       priv ← readFileSync DILITHIUM_PRIVATE_KEY_PATH;
       pub ← readFileSync DILITHIUM_PUBLIC_KEY_PATH;
       mret (mkKeyPair (hex_decode pub) (hex_decode priv))
     else generateDilithiumKeys)
    (fun error =>
       _ ← console_error "Error loading Dilithium keys:";
       generateDilithiumKeys).

End KeyStore.

(** ** Envelope codec and signer/verifier ([pqcrypto.js]) *)

Section Codec.
Context `{L : Library}.

(** [typeof data === 'object' ? JSON.stringify(data) : data] *)
Definition canonical (data : value) : M value :=
  if is_object data
  then s ← call (JSON_stringify data); mret (VStr s)
  else mret data.

Definition encryptData (data : value) : M Envelope :=
  try_catch
    (dataString ← canonical data;
     _ ← getMlKEM;
     keys ← loadOrGenerateKyberKeys;
     coins ← random_bytes 32;
     '(cipherText, sharedSecret) ← call (kem_encapsulate (publicKey keys) coins);
     let aesKey := Hex_parse (hex_encode sharedSecret) in
     iv ← random_bytes 16;
     encrypted ← call (AES_encrypt dataString aesKey iv);
     mret (mkEnvelope (hex_encode cipherText) encrypted (hex_encode iv)))
    (fun error =>
       _ ← console_error "Error encrypting data:";
       throw (Error "Failed to encrypt data")).

(** The inner [try { return JSON.parse(text) } catch (e) { return text }] *)
Definition parse_or_text (decryptedText : string) : value :=
  match JSON_parse decryptedText with
  | Ok v => v
  | Throw _ => VStr decryptedText
  end.

Definition decryptData (encryptedPackage : Envelope) : M value :=
  try_catch
    (let '(mkEnvelope ciphertext encryptedData iv) := encryptedPackage in
     _ ← getMlKEM;
     keys ← loadOrGenerateKyberKeys;
     sharedSecret ← call (kem_decapsulate (hex_decode ciphertext) (privateKey keys));
     let aesKey := Hex_parse (hex_encode sharedSecret) in
     let ivValue := Hex_parse iv in
     decrypted ← call (AES_decrypt encryptedData aesKey ivValue);
     decryptedText ← call (Utf8_stringify decrypted);
     mret (parse_or_text decryptedText))
    (fun error =>
       _ ← console_error "Error decrypting data:";
       throw (Error "Failed to decrypt data")).

(** The signed package [{ data, signature }] is an ordinary object. *)
Definition signData (data : value) : M value :=
  try_catch
    (dataString ← canonical data;
     _ ← getMlDSA;
     keys ← loadOrGenerateDilithiumKeys;
     message ← call (Buffer_from_utf8 dataString);
     rnd ← random_bytes 32;
     signature ← call (dsa_sign message (privateKey keys) rnd);
     mret (VObj [("data", data); ("signature", VStr (hex_encode signature))]))
    (fun error =>
       _ ← console_error "Error signing data:";
       throw (Error "Failed to sign data")).

(** [const { data, signature } = signedPackage]: a [TypeError] on
    [undefined] and [null], property reads otherwise. *)
Definition destructure_package (signedPackage : value) : result (value * value) :=
  match signedPackage with
  | VUndefined | VNull => Throw (Error "TypeError: Cannot destructure")
  | VObj props => Ok (prop_lookup "data" props, prop_lookup "signature" props)
  | _ => Ok (VUndefined, VUndefined)
  end.

(** The call is [dilithium.verify(Buffer.from(dataString, 'utf8'),
    Buffer.from(signature, 'hex'), keys.publicKey)]: the message bytes go
    to the library's first parameter and the signature bytes to its
    second. *)
Definition verifySignature (signedPackage : value) : M bool :=
  try_catch
    ('(data, signature) ← call (destructure_package signedPackage);
     dataString ← canonical data;
     _ ← getMlDSA;
     keys ← loadOrGenerateDilithiumKeys;
     message ← call (Buffer_from_utf8 dataString);
     sigBytes ← call (Buffer_from_hex signature);
     call (dsa_verify message sigBytes (publicKey keys)))
    (fun error =>
       _ ← console_error "Error verifying signature:";
       mret false).

Definition initPQCrypto : M unit :=
  try_catch
    (_ ← loadOrGenerateKyberKeys;
     _ ← loadOrGenerateDilithiumKeys;
     mret tt)
    (fun error =>
       _ ← console_error "Error initializing PQCrypto:";
       throw (Error "Failed to initialize PQCrypto")).

End Codec.

(** ** The Mongoose encryption plugin ([encryptionPlugin.js]) *)

(** A document as the plugin sees it: its paths, the paths Mongoose has
    marked modified (for a new document, every path that was set), and the
    three envelope maps ([None]: the property is missing or is not a
    [Map]). *)
Record Doc : Type := mkDoc {
  paths : gmap string value;
  modifiedPaths : gset string;
  _encrypted : option (gmap string string);
  _encryptedCiphers : option (gmap string string);
  _encryptedIVs : option (gmap string string)
}.

(** [this[field]] *)
Definition get_path (d : Doc) (field : string) : value :=
  default VUndefined (paths d !! field).

(** [this.isModified(field)] *)
Definition isModified (d : Doc) (field : string) : bool :=
  bool_decide (field ∈ modifiedPaths d).

(** [v === undefined || v === null] *)
Definition is_nullish (v : value) : bool :=
  match v with
  | VUndefined | VNull => true
  | _ => false
  end.

(** [if (!this.m) this.m = new Map(); this.m.set(field, s)] *)
Definition map_set (m : option (gmap string string)) (field s : string)
  : option (gmap string string) :=
  Some (<[field := s]> (default ∅ m)).

(** [map.get(field)], on a map that may be missing *)
Definition map_get (m : option (gmap string string)) (field : string) : option string :=
  m ≫= (fun entries => entries !! field).

(** Truthiness of [map.get(field)]: present and not the empty string. *)
Definition truthy (s : option string) : bool :=
  match s with
  | Some (String _ _) => true
  | _ => false
  end.

(** The three [set] calls of the hook. They touch the envelope maps only:
    the document's own paths and their modified marks stay as they are. *)
Definition store_envelope (d : Doc) (field : string) (e : Envelope) : Doc :=
  mkDoc (paths d) (modifiedPaths d)
        (map_set (_encrypted d) field (encryptedData e))
        (map_set (_encryptedCiphers d) field (ciphertext e))
        (map_set (_encryptedIVs d) field (iv e)).

(** The stored envelope parts of one field. *)
Definition stored_parts (d : Doc) (field : string)
  : option string * option string * option string :=
  (map_get (_encrypted d) field,
   map_get (_encryptedCiphers d) field,
   map_get (_encryptedIVs d) field).

Section Plugin.
Context `{L : Library}.

(** The pre-save hook. The document is mutated in place, so it is
    returned together with the argument given to [next]: [None] for
    [next()], [Some error] for [next(error)]. *)
Fixpoint preSave (encryptedFields : list string) (this : Doc)
  : World -> (Doc * option exn) * World :=
  fun w =>
    match encryptedFields with
    | [] => ((this, None), w)
    | field :: rest =>
        if negb (isModified this field) then preSave rest this w
        else if is_nullish (get_path this field) then preSave rest this w
        else
          match encryptData (get_path this field) w with
          | (Ok e, w') => preSave rest (store_envelope this field e) w'
          | (Throw error, w') =>
              ((this, Some error),
               set_console (console w' ++ ["Error encrypting field " +:+ field +:+ ":"]) w')
          end
    end.

Definition decryptField (encryptedFields : list string) (this : Doc) (field : string)
  : M value :=
  if negb (bool_decide (field ∈ encryptedFields))
  then throw (Error ("Field " +:+ field +:+ " is not configured for encryption"))
  else if negb (truthy (map_get (_encrypted this) field)
                && truthy (map_get (_encryptedCiphers this) field)
                && truthy (map_get (_encryptedIVs this) field))
  then mret (get_path this field)
  else
    try_catch
      (let encryptedPackage :=
         mkEnvelope (default "" (map_get (_encryptedCiphers this) field))
                    (default "" (map_get (_encrypted this) field))
                    (default "" (map_get (_encryptedIVs this) field)) in
       decryptData encryptedPackage)
      (fun error =>
         _ ← console_error ("Error decrypting field " +:+ field +:+ ":");
         throw error).

(** The loop of [decryptFields], threading the object being filled. *)
Fixpoint decryptFields_from (encryptedFields : list string) (this : Doc)
    (fields : list string) (decrypted : gmap string value)
  : M (gmap string value) :=
  match fields with
  | [] => mret decrypted
  | field :: rest =>
      v ← try_catch
            (decryptField encryptedFields this field)
            (fun error =>
               _ ← console_error ("Failed to decrypt field " +:+ field +:+ ":");
               mret (get_path this field));
      decryptFields_from encryptedFields this rest (<[field := v]> decrypted)
  end.

Definition decryptFields (encryptedFields : list string) (this : Doc)
  : M (gmap string value) :=
  decryptFields_from encryptedFields this encryptedFields ∅.

End Plugin.

(** ** The safe projections ([User.js], [Batch.js]) *)

Definition userFields : list string := ["name"; "email"; "location"; "company"].
Definition batchFields : list string := ["cropName"; "cropVariety"; "location"; "cropHealth"].

(** A stored envelope map as it appears in a plain object. *)
Definition map_value (m : gmap string string) : value :=
  VObj ((fun kv => (kv.1, VStr kv.2)) <$> map_to_list m).

Definition with_map (k : string) (m : option (gmap string string))
    (o : gmap string value) : gmap string value :=
  match m with
  | Some entries => <[k := map_value entries]> o
  | None => o
  end.

(** [this.toObject()]: the document's paths and the envelope maps it holds. *)
Definition toObject (this : Doc) : gmap string value :=
  with_map "_encrypted" (_encrypted this)
    (with_map "_encryptedCiphers" (_encryptedCiphers this)
       (with_map "_encryptedIVs" (_encryptedIVs this) (paths this))).

(** [Object.assign(target, source)] *)
Definition Object_assign (target source : gmap string value) : gmap string value :=
  source ∪ target.

Section SafeJSON.
(** [this.decryptFields], the method the schema's plugin installed. *)
Variable decryptFields_method : Doc -> M (gmap string value).

Definition userSchema_toSafeJSON (this : Doc) : M (gmap string value) :=
  let user := toObject this in
  try_catch
    (decryptedFields ← decryptFields_method this;
     let user := Object_assign user decryptedFields in
     let user := delete "_encrypted" user in
     let user := delete "_encryptedCiphers" user in
     let user := delete "_encryptedIVs" user in
     let user := delete "password" user in
     mret user)
    (fun error =>
       _ ← console_error "Error creating safe user JSON:";
       let user := delete "_encrypted" user in
       let user := delete "_encryptedCiphers" user in
       let user := delete "_encryptedIVs" user in
       let user := delete "password" user in
       mret user).

Definition batchSchema_toSafeJSON (this : Doc) : M (gmap string value) :=
  let batch := toObject this in
  try_catch
    (decryptedFields ← decryptFields_method this;
     let batch := Object_assign batch decryptedFields in
     let batch := delete "_encrypted" batch in
     let batch := delete "_encryptedCiphers" batch in
     let batch := delete "_encryptedIVs" batch in
     mret batch)
    (fun error =>
       _ ← console_error "Error creating safe batch JSON:";
       let batch := delete "_encrypted" batch in
       let batch := delete "_encryptedCiphers" batch in
       let batch := delete "_encryptedIVs" batch in
       mret batch).

End SafeJSON.

(** ** A small reference library

    An executable instance of [Library], on which the model is run at
    concrete inputs. The key-encapsulation and signature schemes are toy
    schemes over four-byte keys, the cipher is a one-byte XOR mask over a
    padded text, and the JSON printer and parser cover literals, integers,
    plain strings, arrays and objects without white space or escapes. *)

Module Toy.

Definition byte_xor (a b : byte) : byte :=
  let '(a0, (a1, (a2, (a3, (a4, (a5, (a6, a7))))))) := Byte.to_bits a in
  let '(b0, (b1, (b2, (b3, (b4, (b5, (b6, b7))))))) := Byte.to_bits b in
  Byte.of_bits (xorb a0 b0, (xorb a1 b1, (xorb a2 b2, (xorb a3 b3,
               (xorb a4 b4, (xorb a5 b5, (xorb a6 b6, xorb a7 b7))))))).

Definition xor_bytes (a b : list byte) : list byte := zip_with byte_xor a b.

Definition key_of (seed : list byte) : list byte := resize 4 x00 seed.

#[global] Instance byte_eq_decision : EqDecision byte := Byte.byte_eq_dec.

Definition bytes_eqb (a b : list byte) : bool := bool_decide (a = b).

Definition is_ascii_byte (b : byte) : bool := (Byte.to_N b <? 128)%N.

Definition mask (key iv : list byte) : byte :=
  byte_xor (hd x00 key) (hd x00 iv).

(** One byte of padding, and CryptoJS's way of removing it: the last byte
    says how many bytes to drop, and is not checked. *)
Definition pad (bs : list byte) : list byte := (bs ++ [x01])%list.

Definition unpad (bs : list byte) : list byte :=
  take (length bs - N.to_nat (Byte.to_N (List.last bs x00))) bs.

Definition aes_encrypt (v : value) (key iv : list byte) : result string :=
  match v with
  | VStr s =>
      if forallb is_ascii_byte (list_byte_of_string s)
      then Ok (hex_encode (byte_xor (mask key iv) <$> pad (list_byte_of_string s)))
      else Throw (Error "Malformed UTF-8 data")
  | _ => Throw (Error "TypeError: not a string")
  end.

Definition aes_decrypt (text : string) (key iv : list byte) : result (list byte) :=
  Ok (unpad (byte_xor (mask key iv) <$> hex_decode text)).

Definition utf8_stringify (bs : list byte) : result string :=
  if forallb is_ascii_byte bs then Ok (string_of_list_byte bs)
  else Throw (Error "Malformed UTF-8 data").

(** *** JSON *)

Definition dquote : ascii := ascii_of_nat 34.

Definition digit_char (n : N) : ascii := ascii_of_N (48 + n).

Fixpoint digits_of (fuel : nat) (n : N) (acc : string) : string :=
  match fuel with
  | O => acc
  | S fuel' =>
      let acc' := String (digit_char (n mod 10)) acc in
      if (n <? 10)%N then acc' else digits_of fuel' (n / 10)%N acc'
  end.

Definition print_Z (z : Z) : string :=
  let n := Z.abs_N z in
  let ds := digits_of (S (N.to_nat (N.size n))) n "" in
  if (z <? 0)%Z then String "-" ds else ds.

Definition quoted (s : string) : string :=
  String dquote (s +:+ String dquote "").

Fixpoint join (sep : string) (l : list string) : string :=
  match l with
  | [] => ""
  | [x] => x
  | x :: rest => x +:+ sep +:+ join sep rest
  end.

Definition is_undefined (v : value) : bool :=
  match v with VUndefined => true | _ => false end.

Fixpoint print (v : value) : string :=
  match v with
  | VUndefined => "null"
  | VNull => "null"
  | VBool true => "true"
  | VBool false => "false"
  | VNum z => print_Z z
  | VStr s => quoted s
  | VArr items => "[" +:+ join "," (map print items) +:+ "]"
  | VObj props =>
      "{" +:+ join ","
        ((fix members (ps : list (string * value)) : list string :=
            match ps with
            | [] => []
            | (k, x) :: rest =>
                if is_undefined x then members rest
                else (quoted k +:+ ":" +:+ print x) :: members rest
            end) props)
          +:+ "}"
  end.

Definition json_stringify (v : value) : result string := Ok (print v).

Fixpoint strip_prefix (p s : string) : option string :=
  match p, s with
  | EmptyString, _ => Some s
  | String a p', String b s' => if Ascii.eqb a b then strip_prefix p' s' else None
  | _, _ => None
  end.

Definition digit_value (c : ascii) : option Z :=
  let n := N_of_ascii c in
  if ((48 <=? n) && (n <=? 57))%N then Some (Z.of_N n - 48)%Z else None.

Fixpoint read_digits (s : string) (acc : Z) : Z * string :=
  match s with
  | String c rest =>
      match digit_value c with
      | Some d => read_digits rest (10 * acc + d)%Z
      | None => (acc, s)
      end
  | EmptyString => (acc, s)
  end.

Definition read_number (s : string) : option (Z * string) :=
  match s with
  | String c rest =>
      if Ascii.eqb c "-" then
        match rest with
        | String d _ =>
            if is_Some_dec (digit_value d)
            then let '(z, r) := read_digits rest 0 in Some ((- z)%Z, r)
            else None
        | EmptyString => None
        end
      else if is_Some_dec (digit_value c)
      then Some (read_digits s 0)
      else None
  | EmptyString => None
  end.

Fixpoint read_until_quote (s : string) : option (string * string) :=
  match s with
  | EmptyString => None
  | String c rest =>
      if Ascii.eqb c dquote then Some ("", rest)
      else if Ascii.eqb c "\" then None
      else match read_until_quote rest with
           | Some (body, r) => Some (String c body, r)
           | None => None
           end
  end.

Fixpoint parse_value (fuel : nat) (s : string) : option (value * string) :=
  match fuel with
  | O => None
  | S fuel' =>
      match s with
      | EmptyString => None
      | String c rest =>
          if Ascii.eqb c "n" then r ← strip_prefix "ull" rest; Some (VNull, r)
          else if Ascii.eqb c "t" then r ← strip_prefix "rue" rest; Some (VBool true, r)
          else if Ascii.eqb c "f" then r ← strip_prefix "alse" rest; Some (VBool false, r)
          else if Ascii.eqb c dquote then
            '(body, r) ← read_until_quote rest; Some (VStr body, r)
          else if Ascii.eqb c "[" then
            match rest with
            | String "]" r => Some (VArr [], r)
            | _ => '(items, r) ← parse_items fuel' rest; Some (VArr items, r)
            end
          else if Ascii.eqb c "{" then
            match rest with
            | String "}" r => Some (VObj [], r)
            | _ => '(props, r) ← parse_members fuel' rest; Some (VObj props, r)
            end
          else '(z, r) ← read_number s; Some (VNum z, r)
      end
  end
with parse_items (fuel : nat) (s : string) : option (list value * string) :=
  match fuel with
  | O => None
  | S fuel' =>
      '(v, r) ← parse_value fuel' s;
      match r with
      | String "," r' => '(vs, r'') ← parse_items fuel' r'; Some (v :: vs, r'')
      | String "]" r' => Some ([v], r')
      | _ => None
      end
  end
with parse_members (fuel : nat) (s : string)
  : option (list (string * value) * string) :=
  match fuel with
  | O => None
  | S fuel' =>
      match s with
      | String q s1 =>
          if Ascii.eqb q dquote then
            '(k, s2) ← read_until_quote s1;
            s3 ← strip_prefix ":" s2;
            '(v, r) ← parse_value fuel' s3;
            match r with
            | String "," r' => '(kvs, r'') ← parse_members fuel' r'; Some ((k, v) :: kvs, r'')
            | String "}" r' => Some ([(k, v)], r')
            | _ => None
            end
          else None
      | EmptyString => None
      end
  end.

Definition json_parse (s : string) : result value :=
  match parse_value (2 * String.length s + 2) s with
  | Some (v, EmptyString) => Ok v
  | _ => Throw (Error "SyntaxError: Unexpected token")
  end.

(** *** Signatures: a tag of fixed length, eight bytes *)

Definition signature_bytes : nat := 8.

Definition tag (key msg : list byte) : list byte :=
  (resize 4 x00 key ++ resize 4 x00 msg)%list.

Definition lib : Library := {|
  KEY_STORAGE_DIR := "keys";
  kem_keygen seed := Ok (x01 :: key_of seed, x02 :: key_of seed);
  kem_encapsulate pk coins := Ok (xor_bytes (key_of coins) (tail pk), key_of coins);
  kem_decapsulate ct sk := Ok (xor_bytes ct (tail sk));
  dsa_keygen seed := Ok (x03 :: key_of seed, x04 :: key_of seed);
  dsa_sign msg sk rnd := Ok (tag (tail sk) msg);
  dsa_verify sig msg pk :=
    Ok (bool_decide (length sig = signature_bytes) && bytes_eqb sig (tag (tail pk) msg));
  Hex_parse := hex_decode;
  AES_encrypt := aes_encrypt;
  AES_decrypt := aes_decrypt;
  Utf8_stringify := utf8_stringify;
  JSON_stringify := json_stringify;
  JSON_parse := json_parse;
  utf8_encode := list_byte_of_string;
  Buffer_from_other v := Throw (Error "TypeError: argument must be a string")
|}.

(** A fresh machine: empty key directory, both modules installed. *)
Definition fresh_world (rnd : nat -> list byte) : World :=
  mkWorld ∅ true rnd 0 [] true true.

Definition rnd1 (n : nat) : list byte :=
  match n with
  | 0 => [x11; x22; x33; x44]
  | 1 => [x05; x06; x07; x08]
  | 2 => [x01; x02]
  | _ => [x10; x20; x30; x40]
  end.


Definition rnd2 (n : nat) : list byte :=
  match n with
  | 0 => [x12; x34; x56; x78]
  | _ => [x0a; x0b; x0c; x0d]
  end.

Definition world1 : World := fresh_world rnd1.

(** A machine whose key directory holds another, unrelated Kyber pair. *)
Definition world2 : World := snd (@generateKyberKeys lib (fresh_world rnd2)).

Definition kyber_pair1 : KeyPair :=
  mkKeyPair [x01; x11; x22; x33; x44] [x02; x11; x22; x33; x44].

Definition kyber_pair2 : KeyPair :=
  mkKeyPair [x01; x12; x34; x56; x78] [x02; x12; x34; x56; x78].

Definition dilithium_pair1 : KeyPair :=
  mkKeyPair [x03; x11; x22; x33; x44] [x04; x11; x22; x33; x44].

(** A machine whose Kyber key files exist, the private one unreadable. *)
Definition world_unreadable : World :=
  mkWorld (<["keys/kyber_private.key" := File "0211223344" false true]>
             (<["keys/kyber_public.key" := File "0111223344" true true]> ∅))
          true rnd2 0 [] true true.

Definition order : value :=
  VObj [("crop", VStr "Organic Wheat"); ("qty", VNum 3);
        ("tags", VArr [VBool true; VNull; VNum (-12)])].

(** A batch whose [location] was set to the empty string, and whose
    [cropName] is encrypted already and was not touched. *)
Definition batch_doc : Doc :=
  mkDoc (<["location" := VStr ""]> (<["cropName" := VStr "Wheat"]> ∅))
        {["location"]}
        (Some {["cropName" := "536c61657005"]})
        (Some {["cropName" := "1424344c"]})
        (Some {["cropName" := "01020000000000000000000000000000"]}).

(** The envelope of the string hello, made under the first key pair. *)
Definition hello_envelope : Envelope :=
  mkEnvelope "1424344c" "6c6168686b05" "01020000000000000000000000000000".

End Toy.

(** ** Vocabulary of the specification *)

(** The two schemes of the key store: [loadOrGenerate(scheme)]. *)
Inductive scheme : Type := Kyber | Dilithium.

Section Vocabulary.
Context `{L : Library}.

Definition private_key_path (s : scheme) : string :=
  match s with
  | Kyber => KYBER_PRIVATE_KEY_PATH
  | Dilithium => DILITHIUM_PRIVATE_KEY_PATH
  end.

Definition public_key_path (s : scheme) : string :=
  match s with
  | Kyber => KYBER_PUBLIC_KEY_PATH
  | Dilithium => DILITHIUM_PUBLIC_KEY_PATH
  end.

Definition keygen (s : scheme) : list byte -> result (list byte * list byte) :=
  match s with
  | Kyber => kem_keygen
  | Dilithium => dsa_keygen
  end.

Definition generate (s : scheme) : M KeyPair :=
  match s with
  | Kyber => generateKyberKeys
  | Dilithium => generateDilithiumKeys
  end.

Definition loadOrGenerate (s : scheme) : M KeyPair :=
  match s with
  | Kyber => loadOrGenerateKyberKeys
  | Dilithium => loadOrGenerateDilithiumKeys
  end.

Definition load_error_label (s : scheme) : string :=
  match s with
  | Kyber => "Error loading Kyber keys:"
  | Dilithium => "Error loading Dilithium keys:"
  end.

Definition generate_error (s : scheme) : string :=
  match s with
  | Kyber => "Failed to generate Kyber keys"
  | Dilithium => "Failed to generate Dilithium keys"
  end.

(** The world after [console.error(label, ...)]. *)
Definition logged (label : string) (w : World) : World :=
  set_console (console w ++ [label]) w.

(** A key file that can be read and hex-decodes to [k]. *)
Definition holds_key (p : string) (k : list byte) (w : World) : Prop :=
  exists f, files w !! p = Some f /\ readable f = true /\ hex_decode (content f) = k.

(** Both key files of a scheme are on disk, readable, and decode to [kp]. *)
Definition store_holds (s : scheme) (kp : KeyPair) (w : World) : Prop :=
  holds_key (private_key_path s) (privateKey kp) w /\
  holds_key (public_key_path s) (publicKey kp) w.

(** [kp] came out of one call of the scheme's key generation. *)
Definition valid_pair (s : scheme) (kp : KeyPair) : Prop :=
  exists seed, keygen s seed = Ok (publicKey kp, privateKey kp).

Definition store_absent (s : scheme) (w : World) : Prop :=
  files w !! private_key_path s = None /\ files w !! public_key_path s = None.

(** The process's key pair is well defined: a valid pair is on disk, or
    this is the first run and no key file exists yet. *)
Definition store_ready (s : scheme) (w : World) : Prop :=
  (exists kp, valid_pair s kp /\ store_holds s kp w) \/ store_absent s w.

Definition readable_if_present (p : string) (w : World) : Prop :=
  forall f, files w !! p = Some f -> readable f = true.

(** The canonical string form, without the monad. *)
Definition canonical_value (data : value) : result value :=
  if is_object data
  then match JSON_stringify data with
       | Ok s => Ok (VStr s)
       | Throw e => Throw e
       end
  else Ok data.

(** The bytes that are signed and verified for a payload. *)
Definition payload_bytes (data : value) : result (list byte) :=
  match canonical_value data with
  | Ok dataString => Buffer_from_utf8 dataString
  | Throw e => Throw e
  end.

(** What [decryptData] computes once the private key is loaded. *)
Definition open_envelope (e : Envelope) (sk : list byte) : result value :=
  match kem_decapsulate (hex_decode (ciphertext e)) sk with
  | Ok sharedSecret =>
      match AES_decrypt (encryptedData e) (Hex_parse (hex_encode sharedSecret))
                        (Hex_parse (iv e)) with
      | Ok decrypted =>
          match Utf8_stringify decrypted with
          | Ok decryptedText => Ok (parse_or_text decryptedText)
          | Throw err => Throw err
          end
      | Throw err => Throw err
      end
  | Throw err => Throw err
  end.

(** Values on which the codec's round trip is exact: a string that
    [JSON.parse] rejects, or a structured value that
    [JSON.parse(JSON.stringify(v))] reproduces. *)
Definition roundtrippable (v : value) : Prop :=
  match v with
  | VStr s => is_ok (JSON_parse s) = false
  | _ => is_object v = true /\ forall t, JSON_stringify v = Ok t -> JSON_parse t = Ok v
  end.

(** What is assumed of ML-KEM and of CryptoJS for the codec. *)
Record CodecLaws : Prop := {
  (** decapsulation under the matching secret key recovers the secret *)
  kem_correct : forall seed pk sk coins ct ss,
    kem_keygen seed = Ok (pk, sk) ->
    kem_encapsulate pk coins = Ok (ct, ss) ->
    kem_decapsulate ct sk = Ok ss;
  (** [Hex.parse] inverts hex encoding *)
  hex_parse_encode : forall bs, Hex_parse (hex_encode bs) = bs;
  (** AES decryption under the same key and IV recovers the text *)
  aes_correct : forall s key iv c,
    AES_encrypt (VStr s) key iv = Ok c ->
    exists plain, AES_decrypt c key iv = Ok plain /\ Utf8_stringify plain = Ok s
}.

(** What is assumed of ML-DSA, with [verify]'s parameters in the library's
    order (signature, message, public key): a signature made by [sign]
    verifies under the matching public key, and [verify] answers [true]
    only to a signature of the scheme's fixed length [n] (3309 bytes for
    ML-DSA-65). *)
Record SignatureLaws (n : nat) : Prop := {
  dsa_complete : forall seed pk sk msg r sig,
    dsa_keygen seed = Ok (pk, sk) ->
    dsa_sign msg sk r = Ok sig ->
    dsa_verify sig msg pk = Ok true;
  dsa_verify_length : forall sig msg pk,
    dsa_verify sig msg pk = Ok true -> length sig = n
}.

(** What [decryptFields] puts under a field when its loop reaches the field
    in the world [w]: the value [decryptField] returns there, or, when it
    throws there, the document's own value. *)
Definition field_outcome (encryptedFields : list string) (d : Doc) (f : string)
    (w : World) : value :=
  match fst (decryptField encryptedFields d f w) with
  | Ok v => v
  | Throw _ => get_path d f
  end.

(** The world in which the loop of [decryptFields], started in [w], is
    when it has gone through the fields [done]. *)
Definition world_after (encryptedFields : list string) (d : Doc)
    (done : list string) (w : World) : World :=
  snd (decryptFields_from encryptedFields d done ∅ w).

End Vocabulary.

Arguments CodecLaws L : clear implicits.
Arguments SignatureLaws L n : clear implicits.

(** * The callers of the core *)

(** ** JavaScript strings and truthiness *)

(** [!!v] *)
Definition truthy_value (v : value) : bool :=
  match v with
  | VUndefined | VNull => false
  | VBool b => b
  | VNum n => negb (n =? 0)%Z
  | VStr EmptyString => false
  | VStr _ => true
  | VArr _ | VObj _ => true
  end.

Fixpoint drop_prefix (p s : string) : option string :=
  match p, s with
  | EmptyString, _ => Some s
  | String a p', String b s' => if Ascii.eqb a b then drop_prefix p' s' else None
  | String _ _, EmptyString => None
  end.

(** [s.replace(pattern, '')] with a string pattern: the first occurrence
    of the pattern is deleted, wherever it stands. *)
Fixpoint remove_first (pattern s : string) : string :=
  match drop_prefix pattern s with
  | Some rest => rest
  | None =>
      match s with
      | EmptyString => EmptyString
      | String c s' => String c (remove_first pattern s')
      end
  end.

(** ** Request authentication ([middleware/auth.js]) *)

(** What the middleware takes from [jsonwebtoken] and from the process
    environment. *)
Class Web : Type := {
  (** [jwt.verify(token, secret)]: the decoded payload, or a throw *)
  jwt_verify : string -> value -> result value;
  (** [process.env.JWT_SECRET] *)
  JWT_SECRET : value;
  (** [process.env.ENABLE_PQC_SIGNATURES] *)
  ENABLE_PQC_SIGNATURES : value
}.

(** [process.env.ENABLE_PQC_SIGNATURES === 'true'] *)
Definition pqc_enabled `{Web} : bool :=
  match ENABLE_PQC_SIGNATURES with
  | VStr s => String.eqb s "true"
  | _ => false
  end.

(** A request, as far as the middleware reads it: its headers under the
    names the code asks for. *)
Record Request : Type := mkRequest {
  headers : gmap string string
}.

(** [req.header(name)] *)
Definition req_header (req : Request) (name : string) : option string :=
  headers req !! name.

(** How the middleware ends: [req.user = decoded; next()], or
    [res.status(status).json({ message })]. *)
Inductive outcome : Type :=
| Next (user : value)
| Respond (status : nat) (message : string).

Section Middleware.
Context `{L : Library} `{W : Web}.

Definition authMiddleware (req : Request) : M outcome :=
  let token := remove_first "Bearer " <$> req_header req "Authorization" in
  let pqcSignature := req_header req "X-PQC-Signature" in
  if negb (truthy token)
  then mret (Respond 401 "No token, authorization denied")
  else
    let token := default "" token in
    try_catch
      (decoded ← call (jwt_verify token JWT_SECRET);
       if pqc_enabled && truthy pqcSignature
       then
         let signedPackage :=
           VObj [("data", VStr token); ("signature", VStr (default "" pqcSignature))] in
         isValid ← verifySignature signedPackage;
         if negb (isValid : bool)
         then mret (Respond 401 "PQC signature verification failed")
         else mret (Next decoded)
       else mret (Next decoded))
      (fun error =>
         _ ← console_error "Auth middleware error:";
         mret (Respond 401 "Token is not valid")).

End Middleware.

(** ** The browser's verifier ([frontend/src/utils/crypto/pqcrypto.js]) *)

Section Frontend.
Context `{L : Library}.

(** [initPQCrypto(publicKeyHex)], on the module variable
    [dilithiumPublicKey] ([None]: still [null]). *)
Definition frontend_initPQCrypto (publicKeyHex : value)
    (dilithiumPublicKey : option (list byte)) : result (option (list byte)) :=
  if truthy_value publicKeyHex
  then match Buffer_from_hex publicKeyHex with
       | Ok key => Ok (Some key)
       | Throw e => Throw e
       end
  else Ok dilithiumPublicKey.

(** [getPQCHeaders(token, signature)], both strings or missing. *)
Definition getPQCHeaders (token signature : option string) : gmap string string :=
  if negb (truthy token) || negb (truthy signature) then ∅
  else <["Authorization" := "Bearer " +:+ default "" token]>
         (<["X-PQC-Signature" := default "" signature]> ∅).

Definition frontend_verifySignature (dilithiumPublicKey : option (list byte))
    (signedPackage : value) : M bool :=
  try_catch
    (match dilithiumPublicKey with
     | None =>
         _ ← console_error "PQC not initialized with public key";
         mret false
     | Some key =>
         '(data, signature) ← call (destructure_package signedPackage);
         dataString ← canonical data;
         message ← call (Buffer_from_utf8 dataString);
         sigBytes ← call (Buffer_from_hex signature);
         call (dsa_verify message sigBytes key)
     end)
    (fun error =>
       _ ← console_error "Error verifying signature:";
       mret false).

(** The effect of [AuthProvider] that runs when a stored signature is
    found ([contexts/AuthContext.js]): [pqcrypto.initPQCrypto()], with no
    argument. *)
Definition AuthProvider_initPQC (pqcSignature : option string)
    (dilithiumPublicKey : option (list byte)) : result (option (list byte)) :=
  if truthy pqcSignature
  then frontend_initPQCrypto VUndefined dilithiumPublicKey
  else Ok dilithiumPublicKey.

End Frontend.

(** ** Passwords ([User.js]) *)

(** What the user schema takes from [bcrypt]. *)
Class Bcrypt : Type := {
  (** [bcrypt.genSalt(rounds)], from its random bytes *)
  bcrypt_genSalt : nat -> list byte -> result string;
  (** [bcrypt.hash(data, salt)] *)
  bcrypt_hash : value -> string -> result string;
  (** [bcrypt.compare(data, encrypted)] *)
  bcrypt_compare : value -> value -> result bool
}.

(** [this[path] = v] *)
Definition set_path (d : Doc) (path : string) (v : value) : Doc :=
  mkDoc (<[path := v]> (paths d)) ({[path]} ∪ modifiedPaths d)
        (_encrypted d) (_encryptedCiphers d) (_encryptedIVs d).

Section Passwords.
Context `{B : Bcrypt}.

(** The schema's own pre-save hook, registered before the plugin's. *)
Definition hashPassword (this : Doc) : World -> (Doc * option exn) * World :=
  fun w =>
    if negb (isModified this "password") then ((this, None), w)
    else
      match (rnd ← random_bytes 16;
             salt ← call (bcrypt_genSalt 10 rnd);
             call (bcrypt_hash (get_path this "password") salt)) w with
      | (Ok hash, w') => ((set_path this "password" (VStr hash), None), w')
      | (Throw error, w') => ((this, Some error), w')
      end.

Definition isValidPassword (this : Doc) (password : value) : M bool :=
  try_catch
    (call (bcrypt_compare password (get_path this "password")))
    (fun error => throw error).

(** [bcrypt.compare] accepts what [bcrypt.hash] made of the same data. *)
Definition BcryptLaw : Prop :=
  forall data salt hash,
    bcrypt_hash data salt = Ok hash ->
    bcrypt_compare data (VStr hash) = Ok true.

End Passwords.

Arguments BcryptLaw B : clear implicits.

(** ** More of the specification's vocabulary *)

Section Vocabulary2.
Context `{L : Library}.

(** The size of the seed a scheme's key generation draws. *)
Definition seed_size (s : scheme) : nat :=
  match s with
  | Kyber => 64
  | Dilithium => 32
  end.

Definition module_loadable (s : scheme) (w : World) : bool :=
  match s with
  | Kyber => mlkem_loadable w
  | Dilithium => mldsa_loadable w
  end.

(** Can [fs.writeFileSync] write this path. *)
Definition can_write (p : string) (w : World) : bool :=
  match files w !! p with
  | Some f => writable f
  | None => dir_writable w
  end.

(** A field with no usable stored envelope: one of its three parts is
    missing or empty. *)
Definition no_envelope (d : Doc) (f : string) : Prop :=
  truthy (map_get (_encrypted d) f)
  && truthy (map_get (_encryptedCiphers d) f)
  && truthy (map_get (_encryptedIVs d) f) = false.

(** The signed package [{ data, signature }] with a hex signature. *)
Definition signed_package (data : value) (h : string) : value :=
  VObj [("data", data); ("signature", VStr h)].

(** Does the pattern occur in the string. *)
Fixpoint occurs (pattern s : string) : bool :=
  match drop_prefix pattern s with
  | Some _ => true
  | None =>
      match s with
      | EmptyString => false
      | String _ s' => occurs pattern s'
      end
  end.

End Vocabulary2.

(** ** A reference instance for the callers *)

Module ToyWeb.

(** A token is the secret, a dot, and the user's name; a hash is the
    password, a dollar sign, and the salt. *)
Definition verify_token (token : string) (secret : value) : result value :=
  match secret with
  | VStr key =>
      match drop_prefix (key +:+ ".") token with
      | Some user => Ok (VStr user)
      | None => Throw (Error "JsonWebTokenError: invalid signature")
      end
  | _ => Throw (Error "secretOrPublicKey must have a value")
  end.

Definition web : Web := {|
  jwt_verify := verify_token;
  JWT_SECRET := VStr "s3cret";
  ENABLE_PQC_SIGNATURES := VStr "true"
|}.

Definition bcrypt : Bcrypt := {|
  bcrypt_genSalt rounds rnd := Ok (hex_encode (take 2 rnd));
  bcrypt_hash data salt :=
    match data with
    | VStr p => Ok (p +:+ "$" +:+ salt)
    | _ => Throw (Error "data and salt arguments required")
    end;
  bcrypt_compare data encrypted :=
    match data, encrypted with
    | VStr p, VStr h => Ok (bool_decide (is_Some (drop_prefix (p +:+ "$") h)))
    | _, _ => Throw (Error "data and hash arguments required")
    end
|}.

(** A user being registered: every path was just set. *)
Definition user_doc : Doc :=
  mkDoc (<["name" := VStr "Asha Rao"]>
           (<["email" := VStr "asha@example.org"]>
              (<["password" := VStr "hunter2"]>
                 (<["role" := VStr "farmer"]> ∅))))
        {["name"; "email"; "password"; "role"]}
        None None None.

(** A batch written before encryption was introduced. *)
Definition plain_batch : Doc :=
  mkDoc (<["cropName" := VStr "Wheat"]> (<["price" := VNum 40]> ∅)) ∅
        (Some ∅) (Some ∅) (Some ∅).

(** A machine on which the ML-KEM module cannot be imported. *)
Definition world_offline : World :=
  mkWorld ∅ true Toy.rnd1 0 [] false true.

(** A machine whose Kyber public key file is write-protected. *)
Definition world_locked : World :=
  mkWorld (<["keys/kyber_public.key" := File "0111223344" true false]> ∅)
          true Toy.rnd2 0 [] true true.

Definition token1 : string := "s3cret.asha".
Definition token2 : string := "s3cret.mallory".

End ToyWeb.

(** * Properties *)

(** ** Hex encoding *)

Lemma hex_decode_byte (b : byte) (rest : string) :
  hex_decode (hex_of_byte b rest) = b :: hex_decode rest.
Proof. destruct b; reflexivity. Qed.

Lemma hex_decode_encode (bs : list byte) : hex_decode (hex_encode bs) = bs.
Proof.
  induction bs as [|b bs IH]; cbn [hex_encode]; [reflexivity|].
  rewrite hex_decode_byte. now rewrite IH.
Qed.

Example hex_encode_bytes : hex_encode [x00; x0f; xab; xff] = "000fabff".
Proof. reflexivity. Qed.

Example hex_decode_upper_case : hex_decode "0FaB" = [x0f; xab].
Proof. reflexivity. Qed.

(** Decoding stops at the first pair that is not hex, and drops a lone
    trailing digit. *)
Example hex_decode_truncates :
  hex_decode "abxx12" = [xab] /\ hex_decode "abc" = [xab].
Proof. split; reflexivity. Qed.

(** ** Paths *)

Lemma append_inj_l (p a b : string) : p +:+ a = p +:+ b -> a = b.
Proof.
  induction p as [|c p IH]; simpl; intros H; [exact H|].
  injection H as H. auto.
Qed.

Section Paths.
Context `{L : Library}.

Lemma key_paths_distinct (s : scheme) : private_key_path s <> public_key_path s.
Proof.
  destruct s; intros H; apply append_inj_l in H; discriminate H.
Qed.

End Paths.

(** ** Key store *)

Ltac unfold_monad :=
  unfold try_catch, mbind, M_bind, bind, mret, M_ret, ret, call, throw,
    console_error, existsSync, getMlKEM, getMlDSA, random_bytes in *.

Section KeyStoreFacts.
Context `{L : Library}.

Lemma writeFileSync_ok (p s : string) (w w1 : World) (u : unit) :
  writeFileSync p s w = (Ok u, w1) ->
  exists r, w1 = set_files (<[p := File s r true]> (files w)) w /\
            (readable_if_present p w -> r = true).
Proof.
  unfold writeFileSync. intros H.
  destruct (files w !! p) as [f|] eqn:Hf.
  - destruct (writable f); [|discriminate H].
    injection H as _ <-. exists (readable f). split; [reflexivity|].
    intros Hr. exact (Hr f Hf).
  - destruct (dir_writable w); [|discriminate H].
    injection H as _ <-. exists true. split; reflexivity.
Qed.

Lemma generate_ok (s : scheme) (w w1 : World) (kp : KeyPair) :
  generate s w = (Ok kp, w1) ->
  valid_pair s kp /\
  (readable_if_present (private_key_path s) w ->
   readable_if_present (public_key_path s) w -> store_holds s kp w1) /\
  mlkem_loadable w1 = mlkem_loadable w /\ mldsa_loadable w1 = mldsa_loadable w.
Proof.
  pose proof (key_paths_distinct s) as Hne.
  destruct s; cbn [generate private_key_path public_key_path keygen] in *;
    unfold generateKyberKeys, generateDilithiumKeys; unfold_monad; intros H.
  all: repeat case_match; simplify_eq.
  all: match goal with
       | H1 : writeFileSync _ _ _ = (Ok _, ?wa), H2 : writeFileSync _ _ ?wa = _ |- _ =>
           apply writeFileSync_ok in H1 as (r1 & -> & Hr1);
           apply writeFileSync_ok in H2 as (r2 & -> & Hr2)
       end.
  all: split; [eexists; cbn [keygen publicKey privateKey]; eassumption|].
  all: split; [|split; first [assumption | reflexivity]].
  all: intros Hpriv Hpub; split.
  all: unfold holds_key; cbn [private_key_path public_key_path publicKey privateKey files set_files set_tick].
  - rewrite lookup_insert_ne by (intros E; apply Hne; symmetry; exact E).
    rewrite lookup_insert_eq. eexists. split; [reflexivity|].
    cbn. split; [apply Hr1; exact Hpriv|apply hex_decode_encode].
  - rewrite lookup_insert_eq. eexists. split; [reflexivity|].
    cbn. split; [|apply hex_decode_encode].
    apply Hr2. intros f. cbn.
    rewrite lookup_insert_ne by exact Hne. apply Hpub.
  - rewrite lookup_insert_ne by (intros E; apply Hne; symmetry; exact E).
    rewrite lookup_insert_eq. eexists. split; [reflexivity|].
    cbn. split; [apply Hr1; exact Hpriv|apply hex_decode_encode].
  - rewrite lookup_insert_eq. eexists. split; [reflexivity|].
    cbn. split; [|apply hex_decode_encode].
    apply Hr2. intros f. cbn.
    rewrite lookup_insert_ne by exact Hne. apply Hpub.
Qed.

(** Loading from a store that holds a pair returns that pair and changes
    nothing. *)
Lemma load_store_holds (s : scheme) (kp : KeyPair) (w : World) :
  store_holds s kp w -> loadOrGenerate s w = (Ok kp, w).
Proof.
  intros [(fpriv & Hf1 & Hr1 & Hk1) (fpub & Hf2 & Hr2 & Hk2)].
  destruct kp as [pk sk]. cbn [publicKey privateKey] in *.
  destruct s; cbn [loadOrGenerate private_key_path public_key_path] in *;
    unfold loadOrGenerateKyberKeys, loadOrGenerateDilithiumKeys, readFileSync;
    unfold_monad.
  all: repeat first
         [ rewrite Hf1 | rewrite Hf2 | rewrite Hr1 | rewrite Hr2
         | rewrite bool_decide_eq_true_2 by (eexists; reflexivity)
         | progress cbn beta iota ].
  all: now rewrite Hk1, Hk2.
Qed.

(** The loader, when both key files exist: a readable pair of files is
    decoded as it is; a read that throws is logged and answered by
    generating a new pair. *)
Lemma load_existing (s : scheme) (w : World) (fpriv fpub : file) :
  files w !! private_key_path s = Some fpriv ->
  files w !! public_key_path s = Some fpub ->
  loadOrGenerate s w =
    if readable fpriv && readable fpub
    then (Ok (mkKeyPair (hex_decode (content fpub)) (hex_decode (content fpriv))), w)
    else generate s (logged (load_error_label s) w).
Proof.
  intros Hf1 Hf2.
  destruct s; cbn [loadOrGenerate private_key_path public_key_path generate load_error_label] in *;
    unfold loadOrGenerateKyberKeys, loadOrGenerateDilithiumKeys, readFileSync, logged;
    unfold_monad.
  all: repeat first
         [ rewrite Hf1 | rewrite Hf2
         | rewrite bool_decide_eq_true_2 by (eexists; reflexivity)
         | progress cbn beta iota ].
  all: destruct (readable fpriv); cbn beta iota; repeat rewrite Hf2;
    destruct (readable fpub); reflexivity.
Qed.

(** The loader, when a key file is missing. *)
Lemma load_missing (s : scheme) (w : World) :
  files w !! private_key_path s = None \/ files w !! public_key_path s = None ->
  loadOrGenerate s w =
    match generate s w with
    | (Ok kp, w1) => (Ok kp, w1)
    | (Throw _, w1) => generate s (logged (load_error_label s) w1)
    end.
Proof.
  intros Hmiss.
  destruct (files w !! private_key_path s) as [f1|] eqn:E1;
    destruct (files w !! public_key_path s) as [f2|] eqn:E2;
    try (destruct Hmiss; discriminate).
  all: destruct s; cbn [loadOrGenerate private_key_path public_key_path generate load_error_label] in *;
    unfold loadOrGenerateKyberKeys, loadOrGenerateDilithiumKeys, logged;
    unfold_monad.
  all: repeat first
         [ rewrite E1 | rewrite E2
         | rewrite bool_decide_eq_true_2 by (eexists; reflexivity)
         | rewrite (bool_decide_eq_false_2 (is_Some None)) by (intros [? ?]; discriminate)
         | progress cbn beta iota ].
  all: repeat case_match; simplify_eq; reflexivity.
Qed.

End KeyStoreFacts.

Section KeyStoreTheorems.
Context `{L : Library}.

Lemma writeFileSync_readable (p s q : string) (w w' : World) (r : result unit) :
  writeFileSync p s w = (r, w') ->
  readable_if_present q w -> readable_if_present q w'.
Proof.
  unfold writeFileSync, readable_if_present. intros H Hq f.
  destruct (files w !! p) as [f0|] eqn:Hf.
  - destruct (writable f0); injection H as <- <-; [|apply Hq].
    cbn. destruct (decide (p = q)) as [->|Hne].
    + rewrite lookup_insert_eq. intros [= <-]. cbn. apply (Hq f0 Hf).
    + rewrite lookup_insert_ne by exact Hne. apply Hq.
  - destruct (dir_writable w); injection H as <- <-; [|apply Hq].
    cbn. destruct (decide (p = q)) as [->|Hne].
    + rewrite lookup_insert_eq. intros [= <-]. reflexivity.
    + rewrite lookup_insert_ne by exact Hne. apply Hq.
Qed.

Lemma generate_readable (s : scheme) (q : string) (w w' : World) (r : result KeyPair) :
  generate s w = (r, w') ->
  readable_if_present q w -> readable_if_present q w'.
Proof.
  destruct s; cbn [generate]; unfold generateKyberKeys, generateDilithiumKeys;
    unfold_monad; intros H Hq.
  all: repeat case_match; simplify_eq; try exact Hq.
  all: repeat match goal with
       | H1 : writeFileSync _ _ _ = _ |- _ =>
           apply (writeFileSync_readable _ _ q) in H1; [|assumption]
       end; assumption.
Qed.

(** A pair the loader has returned is read back by the next call. *)
Lemma load_twice (s : scheme) (w w1 : World) (kp : KeyPair) :
  readable_if_present (private_key_path s) w ->
  readable_if_present (public_key_path s) w ->
  loadOrGenerate s w = (Ok kp, w1) ->
  loadOrGenerate s w1 = (Ok kp, w1).
Proof.
  intros Hpriv Hpub Hload.
  destruct (files w !! private_key_path s) as [fpriv|] eqn:E1;
    [destruct (files w !! public_key_path s) as [fpub|] eqn:E2|].
  - pose proof Hload as Hload'.
    rewrite (load_existing s w fpriv fpub E1 E2) in Hload.
    rewrite (Hpriv _ E1), (Hpub _ E2) in Hload. cbn in Hload.
    injection Hload as _ <-. exact Hload'.
  - rewrite load_missing in Hload by (right; exact E2).
    destruct (generate s w) as [[kp0|e] w0] eqn:G.
    + injection Hload as -> ->.
      apply load_store_holds. now apply (generate_ok s w w1 kp G).
    + apply load_store_holds.
      apply (generate_ok s _ w1 kp Hload); unfold logged, readable_if_present; cbn;
        [apply (generate_readable s _ w w0 _ G Hpriv)
        |apply (generate_readable s _ w w0 _ G Hpub)].
  - rewrite load_missing in Hload by (left; exact E1).
    destruct (generate s w) as [[kp0|e] w0] eqn:G.
    + injection Hload as -> ->.
      apply load_store_holds. now apply (generate_ok s w w1 kp G).
    + apply load_store_holds.
      apply (generate_ok s _ w1 kp Hload); unfold logged, readable_if_present; cbn;
        [apply (generate_readable s _ w w0 _ G Hpriv)
        |apply (generate_readable s _ w w0 _ G Hpub)].
Qed.

Lemma generate_writes (s : scheme) (w w1 : World) (kp : KeyPair) :
  generate s w = (Ok kp, w1) ->
  content <$> (files w1 !! private_key_path s) = Some (hex_encode (privateKey kp)) /\
  content <$> (files w1 !! public_key_path s) = Some (hex_encode (publicKey kp)).
Proof.
  pose proof (key_paths_distinct s) as Hne.
  destruct s; cbn [generate private_key_path public_key_path] in *;
    unfold generateKyberKeys, generateDilithiumKeys; unfold_monad; intros H.
  all: repeat case_match; simplify_eq.
  all: match goal with
       | H1 : writeFileSync _ _ _ = (Ok _, ?wa), H2 : writeFileSync _ _ ?wa = _ |- _ =>
           apply writeFileSync_ok in H1 as (r1 & -> & Hr1);
           apply writeFileSync_ok in H2 as (r2 & -> & Hr2)
       end.
  all: cbn [files set_files set_tick publicKey privateKey].
  all: rewrite lookup_insert_ne by (intros E; apply Hne; symmetry; exact E).
  all: rewrite !lookup_insert_eq; split; reflexivity.
Qed.

Lemma generate_throws (s : scheme) (w w1 : World) (e : exn) :
  generate s w = (Throw e, w1) -> e = Error (generate_error s).
Proof.
  destruct s; cbn [generate generate_error];
    unfold generateKyberKeys, generateDilithiumKeys; unfold_monad; intros H.
  all: repeat case_match; simplify_eq; reflexivity.
Qed.

(** C6. Loading the keys twice in a row gives byte-identical pairs, for
    the Kyber and for the Dilithium pair alike. When the key files are
    already written, a call returns the pair they hex-decode to and leaves
    the state as it is; and whenever a call has returned a pair (read from
    the key files, or generated and written to them as hex), the next call
    over the on-disk state it left reads the same pair back and changes
    nothing. The key files are assumed readable where they exist. *)
Theorem key_loading_idempotent (s : scheme) (w : World) :
  readable_if_present (private_key_path s) w ->
  readable_if_present (public_key_path s) w ->
  (forall fpriv fpub,
     files w !! private_key_path s = Some fpriv ->
     files w !! public_key_path s = Some fpub ->
     loadOrGenerate s w
     = (Ok (mkKeyPair (hex_decode (content fpub)) (hex_decode (content fpriv))), w)) /\
  (forall kp w1,
     loadOrGenerate s w = (Ok kp, w1) -> loadOrGenerate s w1 = (Ok kp, w1)).
Proof.
  intros Hpriv Hpub. split.
  - intros fpriv fpub E1 E2. rewrite (load_existing s w fpriv fpub E1 E2).
    now rewrite (Hpriv _ E1), (Hpub _ E2).
  - intros kp w1. now apply load_twice.
Qed.

(** C3, as the code has it. When both key files exist, the loader never
    propagates a read failure. Files that can be read are hex-decoded as
    they are, whatever they contain. If reading either file throws, the
    loader logs the error and calls the generator: a pair that is returned
    is a freshly generated one, written as hex over the key files, and the
    only error that can reach the caller is the generator's own. *)
Theorem read_failure_regenerates (s : scheme) (w : World) (fpriv fpub : file) :
  files w !! private_key_path s = Some fpriv ->
  files w !! public_key_path s = Some fpub ->
  loadOrGenerate s w =
    (if readable fpriv && readable fpub
     then (Ok (mkKeyPair (hex_decode (content fpub)) (hex_decode (content fpriv))), w)
     else generate s (logged (load_error_label s) w)) /\
  (readable fpriv && readable fpub = false ->
   (forall kp w1,
      loadOrGenerate s w = (Ok kp, w1) ->
      valid_pair s kp /\
      content <$> (files w1 !! private_key_path s) = Some (hex_encode (privateKey kp)) /\
      content <$> (files w1 !! public_key_path s) = Some (hex_encode (publicKey kp))) /\
   (forall e w1,
      loadOrGenerate s w = (Throw e, w1) -> e = Error (generate_error s))).
Proof.
  intros E1 E2. pose proof (load_existing s w fpriv fpub E1 E2) as Hload.
  split; [exact Hload|]. intros Hr. rewrite Hr in Hload. rewrite Hload. split.
  - intros kp w1 G. split; [exact (proj1 (generate_ok s _ w1 kp G))|].
    exact (generate_writes s _ w1 kp G).
  - intros e w1 G. exact (generate_throws s _ w1 e G).
Qed.

End KeyStoreTheorems.

(** ** Envelope codec *)

Section CodecFacts.
Context `{L : Library}.

Lemma canonical_run (data : value) (w : World) :
  canonical data w = (canonical_value data, w).
Proof.
  unfold canonical, canonical_value; unfold_monad.
  destruct (is_object data); [|reflexivity].
  destruct (JSON_stringify data); reflexivity.
Qed.

Lemma store_holds_files (s : scheme) (kp : KeyPair) (w w' : World) :
  files w' = files w -> store_holds s kp w -> store_holds s kp w'.
Proof. unfold store_holds, holds_key. intros ->. auto. Qed.

Lemma generate_flags (s : scheme) (w w' : World) (r : result KeyPair) :
  generate s w = (r, w') ->
  mlkem_loadable w' = mlkem_loadable w /\ mldsa_loadable w' = mldsa_loadable w.
Proof.
  destruct s; cbn [generate]; unfold generateKyberKeys, generateDilithiumKeys;
    unfold_monad; intros H.
  all: repeat case_match; simplify_eq; cbn; try (split; congruence).
  all: unfold writeFileSync in *; repeat case_match; simplify_eq; cbn;
    split; congruence.
Qed.

(** A successful load from a ready store returns a valid pair and leaves
    that pair on disk. *)
Lemma load_ready (s : scheme) (w w1 : World) (kp : KeyPair) :
  store_ready s w ->
  loadOrGenerate s w = (Ok kp, w1) ->
  valid_pair s kp /\ store_holds s kp w1 /\
  mlkem_loadable w1 = mlkem_loadable w /\ mldsa_loadable w1 = mldsa_loadable w.
Proof.
  intros [(kp0 & Hv & Hs)|[E1 E2]] Hload.
  - rewrite (load_store_holds s kp0 w Hs) in Hload. injection Hload as <- <-.
    auto.
  - assert (Hr1 : readable_if_present (private_key_path s) w)
      by (intros f Hf; rewrite E1 in Hf; discriminate).
    assert (Hr2 : readable_if_present (public_key_path s) w)
      by (intros f Hf; rewrite E2 in Hf; discriminate).
    rewrite load_missing in Hload by (left; exact E1).
    destruct (generate s w) as [[kp0|e] w0] eqn:G.
    + injection Hload as -> ->.
      destruct (generate_ok s w w1 kp G) as (Hv & Hs & Hf1 & Hf2). auto.
    + destruct (generate_ok s _ w1 kp Hload) as (Hv & Hs & Hf1 & Hf2).
      destruct (generate_flags s w w0 _ G) as [Hg1 Hg2].
      split; [exact Hv|]. split.
      * apply Hs; unfold logged, readable_if_present; cbn;
          [apply (generate_readable s _ w w0 _ G Hr1)
          |apply (generate_readable s _ w w0 _ G Hr2)].
      * cbn in Hf1, Hf2. rewrite Hf1, Hf2. auto.
Qed.

(** What a successful [encryptData] did. *)
Lemma encryptData_ok (data : value) (w w1 : World) (e : Envelope) :
  encryptData data w = (Ok e, w1) ->
  exists dataString keys w0 coins ct ss ivb,
    canonical_value data = Ok dataString /\
    mlkem_loadable w = true /\
    loadOrGenerate Kyber w = (Ok keys, w0) /\
    kem_encapsulate (publicKey keys) coins = Ok (ct, ss) /\
    AES_encrypt dataString (Hex_parse (hex_encode ss)) ivb = Ok (encryptedData e) /\
    ciphertext e = hex_encode ct /\ iv e = hex_encode ivb /\
    files w1 = files w0 /\ mlkem_loadable w1 = mlkem_loadable w0.
Proof.
  unfold encryptData. unfold try_catch at 1. unfold mbind, M_bind, bind at 1.
  rewrite canonical_run.
  destruct (canonical_value data) as [dataString|err] eqn:Hc; [|discriminate].
  unfold bind at 1. unfold getMlKEM.
  destruct (mlkem_loadable w) eqn:Hm; [|discriminate].
  unfold bind at 1. cbn [loadOrGenerate].
  destruct (loadOrGenerateKyberKeys w) as [[keys|err] w0] eqn:Hl; [|discriminate].
  unfold_monad. intros H.
  repeat case_match; simplify_eq.
  do 7 eexists. repeat split; try eassumption; reflexivity.
Qed.

(** [decryptData] over a store that holds a pair, whichever pair it is. *)
Lemma decryptData_run (e : Envelope) (kp : KeyPair) (w : World) :
  store_holds Kyber kp w ->
  mlkem_loadable w = true ->
  decryptData e w =
    match open_envelope e (privateKey kp) with
    | Ok v => (Ok v, w)
    | Throw _ => (Throw (Error "Failed to decrypt data"), logged "Error decrypting data:" w)
    end.
Proof.
  intros Hs Hm. apply load_store_holds in Hs. cbn [loadOrGenerate] in Hs.
  unfold decryptData, open_envelope, logged. destruct e as [c d i].
  cbn [ciphertext encryptedData iv].
  unfold try_catch, mbind, M_bind, bind, getMlKEM. rewrite Hm, Hs.
  unfold_monad.
  repeat case_match; simplify_eq; reflexivity.
Qed.

End CodecFacts.

Section CodecTheorems.
Context `{L : Library}.

(** C1, as the code has it. Decrypting the envelope produced by encrypting
    [v] under the process's Kyber key pair returns [v] exactly when [v] is
    a string that is not itself JSON text, or a structured value that
    [JSON.parse(JSON.stringify(v))] reproduces. (A string that is JSON text
    comes back as the parsed value: the envelope keeps no record of the
    original type.) *)
Theorem codec_roundtrip (Laws : CodecLaws L) (v : value) (w w1 : World) (e : Envelope) :
  store_ready Kyber w ->
  encryptData v w = (Ok e, w1) ->
  roundtrippable v ->
  decryptData e w1 = (Ok v, w1).
Proof.
  intros Hready Henc Hv.
  destruct (encryptData_ok v w w1 e Henc)
    as (dataString & keys & w0 & coins & ct & ss & ivb &
        Hc & Hm & Hl & Hk & Ha & Hct & Hiv & Hfiles & Hflag).
  destruct (load_ready Kyber w w0 keys Hready Hl) as ((seed & Hseed) & Hs & Hf1 & _).
  cbn [keygen] in Hseed.
  assert (Hs1 : store_holds Kyber keys w1) by (apply (store_holds_files _ _ w0); assumption).
  assert (Hm1 : mlkem_loadable w1 = true) by congruence.
  rewrite (decryptData_run e keys w1 Hs1 Hm1).
  assert (Htext : exists text, dataString = VStr text /\ parse_or_text text = v).
  { unfold canonical_value in Hc. unfold parse_or_text.
    destruct v; cbn in Hv, Hc; try (exfalso; apply proj1 in Hv; discriminate Hv).
    - destruct Hv as [_ Hv]. destruct (JSON_stringify VNull) as [t|] eqn:Ht; [|discriminate].
      injection Hc as <-. exists t. now rewrite (Hv t eq_refl).
    - injection Hc as <-. exists s. split; [reflexivity|].
      destruct (JSON_parse s); [discriminate Hv|reflexivity].
    - destruct Hv as [_ Hv]. destruct (JSON_stringify (VArr items)) as [t|] eqn:Ht; [|discriminate].
      injection Hc as <-. exists t. now rewrite (Hv t eq_refl).
    - destruct Hv as [_ Hv]. destruct (JSON_stringify (VObj props)) as [t|] eqn:Ht; [|discriminate].
      injection Hc as <-. exists t. now rewrite (Hv t eq_refl). }
  destruct Htext as (text & -> & Hparse).
  destruct (aes_correct Laws _ _ _ _ Ha) as (plain & Hd & Hu).
  unfold open_envelope. rewrite Hct, Hiv, hex_decode_encode.
  rewrite (kem_correct Laws _ _ _ _ _ _ Hseed Hk).
  rewrite (hex_parse_encode Laws ivb), Hd, Hu, Hparse. reflexivity.
Qed.

(** C2, as the code has it. With whatever key pair the store holds now
    (the pair that made the envelope or an unrelated one), [decryptData]
    fails, with [Failed to decrypt data], exactly when decapsulation, AES
    decryption or UTF-8 decoding throws under that private key; when none
    of them throws it returns the text they produce, parsed as JSON where
    it parses. The code has no other check of the key. *)
Theorem decrypt_fails_only_if_primitive_throws (e : Envelope) (kp : KeyPair) (w : World) :
  store_holds Kyber kp w ->
  mlkem_loadable w = true ->
  decryptData e w =
    match open_envelope e (privateKey kp) with
    | Ok v => (Ok v, w)
    | Throw _ => (Throw (Error "Failed to decrypt data"), logged "Error decrypting data:" w)
    end.
Proof. apply decryptData_run. Qed.

End CodecTheorems.

(** ** Signer and verifier *)

Section SignerFacts.
Context `{L : Library}.

Lemma payload_bytes_run (data : value) :
  payload_bytes data =
    match canonical_value data with
    | Ok dataString => Buffer_from_utf8 dataString
    | Throw e => Throw e
    end.
Proof. reflexivity. Qed.

(** What a successful [signData] did. *)
Lemma signData_ok (data : value) (w w1 : World) (pkg : value) :
  signData data w = (Ok pkg, w1) ->
  exists message keys w0 rnd signature,
    payload_bytes data = Ok message /\
    mldsa_loadable w = true /\
    loadOrGenerate Dilithium w = (Ok keys, w0) /\
    dsa_sign message (privateKey keys) rnd = Ok signature /\
    pkg = VObj [("data", data); ("signature", VStr (hex_encode signature))] /\
    files w1 = files w0 /\ mldsa_loadable w1 = mldsa_loadable w0.
Proof.
  unfold signData, payload_bytes. unfold try_catch at 1. unfold mbind, M_bind, bind at 1.
  rewrite canonical_run.
  destruct (canonical_value data) as [dataString|err] eqn:Hc; [|discriminate].
  unfold bind at 1. unfold getMlDSA.
  destruct (mldsa_loadable w) eqn:Hm; [|discriminate].
  unfold bind at 1. cbn [loadOrGenerate].
  destruct (loadOrGenerateDilithiumKeys w) as [[keys|err] w0] eqn:Hl; [|discriminate].
  unfold_monad. intros H.
  repeat case_match; simplify_eq.
  do 5 eexists. repeat split; try eassumption; reflexivity.
Qed.

(** [verifySignature] on a package [{ data, signature }] whose signature
    is a string, over a store that holds a pair. *)
Lemma verifySignature_run (data : value) (h : string) (kp : KeyPair) (w : World) :
  store_holds Dilithium kp w ->
  mldsa_loadable w = true ->
  verifySignature (VObj [("data", data); ("signature", VStr h)]) w =
    match payload_bytes data with
    | Ok message =>
        match dsa_verify message (hex_decode h) (publicKey kp) with
        | Ok b => (Ok b, w)
        | Throw _ => (Ok false, logged "Error verifying signature:" w)
        end
    | Throw _ => (Ok false, logged "Error verifying signature:" w)
    end.
Proof.
  intros Hs Hm. apply load_store_holds in Hs. cbn [loadOrGenerate] in Hs.
  unfold verifySignature, payload_bytes, logged.
  unfold try_catch, mbind, M_bind. unfold bind at 1. cbn [call destructure_package prop_lookup String.eqb Ascii.eqb Bool.eqb].
  cbn beta iota. unfold bind at 1. rewrite canonical_run.
  destruct (canonical_value data) as [dataString|err]; [|reflexivity].
  unfold bind at 1. unfold getMlDSA. rewrite Hm.
  unfold bind at 1. rewrite Hs.
  unfold_monad. cbn [Buffer_from_hex].
  repeat case_match; simplify_eq; reflexivity.
Qed.

End SignerFacts.

Section SignerTheorems.
Context `{L : Library}.

(** C4. [verifySignature] never throws: for every input value it returns
    a boolean, and that boolean is [true] only when the package could be
    destructured, the payload and the signature could be converted to
    bytes, the keys could be loaded and the verification primitive itself
    answered [true]. Every failure (bad signature, wrong key, malformed
    input, a library error) gives [false]. *)
Theorem verifySignature_never_throws (signedPackage : value) (w : World) :
  exists b w', verifySignature signedPackage w = (Ok b, w') /\
    (b = true ->
     exists data signature message sigBytes keys w0,
       destructure_package signedPackage = Ok (data, signature) /\
       payload_bytes data = Ok message /\
       Buffer_from_hex signature = Ok sigBytes /\
       loadOrGenerate Dilithium w = (Ok keys, w0) /\
       dsa_verify message sigBytes (publicKey keys) = Ok true).
Proof.
  unfold verifySignature, payload_bytes.
  unfold try_catch, mbind, M_bind. unfold bind at 1. unfold call at 1.
  destruct (destructure_package signedPackage) as [[data signature]|err] eqn:Hd;
    [|unfold_monad; eexists _, _; split; [reflexivity|discriminate]].
  unfold bind at 1. rewrite canonical_run.
  destruct (canonical_value data) as [dataString|err] eqn:Hc;
    [|unfold_monad; eexists _, _; split; [reflexivity|discriminate]].
  unfold bind at 1. unfold getMlDSA.
  destruct (mldsa_loadable w) eqn:Hm;
    [|unfold_monad; eexists _, _; split; [reflexivity|discriminate]].
  unfold bind at 1. cbn [loadOrGenerate].
  destruct (loadOrGenerateDilithiumKeys w) as [[keys|err] w0] eqn:Hl;
    [|unfold_monad; eexists _, _; split; [reflexivity|discriminate]].
  unfold_monad.
  destruct (Buffer_from_utf8 dataString) as [message|err] eqn:Hb;
    [|eexists _, _; split; [reflexivity|discriminate]].
  destruct (Buffer_from_hex signature) as [sigBytes|err] eqn:Hh;
    [|eexists _, _; split; [reflexivity|discriminate]].
  destruct (dsa_verify message sigBytes (publicKey keys)) as [b|err] eqn:Hv;
    [|eexists _, _; split; [reflexivity|discriminate]].
  eexists _, _; split; [reflexivity|]. intros ->.
  exists data, signature, message, sigBytes, keys, w0.
  rewrite Hc. auto.
Qed.

(** C5, on the code as it is. The signature [signData] makes for a payload
    [p] is genuine: the library's [verify], given the signature, the
    payload's bytes and the public key in its own order, accepts it. But
    [verifySignature] hands the payload's bytes over as the signature and
    the signature as the message, so for every payload whose canonical
    bytes have not the length [n] of a signature it answers [false] to
    the very package [signData] returned. *)
Theorem genuine_signature_is_refused (n : nat) (Laws : SignatureLaws L n)
    (p : value) (w w1 : World) (pkg : value) :
  store_ready Dilithium w ->
  signData p w = (Ok pkg, w1) ->
  (forall msg, payload_bytes p = Ok msg -> length msg <> n) ->
  exists sig msg keys,
    pkg = VObj [("data", p); ("signature", VStr (hex_encode sig))] /\
    payload_bytes p = Ok msg /\
    store_holds Dilithium keys w1 /\
    dsa_verify sig msg (publicKey keys) = Ok true /\
    fst (verifySignature pkg w1) = Ok false.
Proof.
  intros Hready Hsign Hlen.
  destruct (signData_ok p w w1 pkg Hsign)
    as (message & keys & w0 & rnd & signature & Hp & Hm & Hl & Hs & -> & Hfiles & Hflag).
  destruct (load_ready Dilithium w w0 keys Hready Hl) as ((seed & Hseed) & Hst & _ & Hf2).
  cbn [keygen] in Hseed.
  assert (Hs1 : store_holds Dilithium keys w1) by (apply (store_holds_files _ _ w0); assumption).
  assert (Hm1 : mldsa_loadable w1 = true) by congruence.
  exists signature, message, keys.
  split; [reflexivity|]. split; [exact Hp|]. split; [exact Hs1|]. split.
  - apply (dsa_complete n Laws seed (publicKey keys) (privateKey keys) message rnd).
    + destruct keys; exact Hseed.
    + exact Hs.
  - rewrite (verifySignature_run p _ keys w1 Hs1 Hm1), hex_decode_encode, Hp.
    destruct (dsa_verify message signature (publicKey keys)) as [[|]|err] eqn:Hv;
      [exfalso|reflexivity|reflexivity].
    exact (Hlen message Hp (dsa_verify_length n Laws _ _ _ Hv)).
Qed.

End SignerTheorems.

(** ** The encryption plugin *)

Lemma map_get_set_eq (m : option (gmap string string)) (f s : string) :
  map_get (map_set m f s) f = Some s.
Proof. unfold map_get, map_set. cbn. apply lookup_insert_eq. Qed.

Lemma map_get_set_ne (m : option (gmap string string)) (f g s : string) :
  g <> f -> map_get (map_set m g s) f = map_get m f.
Proof.
  intros Hne. unfold map_get, map_set. cbn.
  rewrite lookup_insert_ne by exact Hne.
  destruct m; [reflexivity|apply lookup_empty].
Qed.

Lemma stored_parts_store_eq (d : Doc) (f : string) (e : Envelope) :
  stored_parts (store_envelope d f e) f
  = (Some (encryptedData e), Some (ciphertext e), Some (iv e)).
Proof.
  unfold stored_parts, store_envelope.
  cbn [_encrypted _encryptedCiphers _encryptedIVs]. now rewrite !map_get_set_eq.
Qed.

Lemma stored_parts_store_ne (d : Doc) (f g : string) (e : Envelope) :
  g <> f -> stored_parts (store_envelope d g e) f = stored_parts d f.
Proof.
  intros Hne. unfold stored_parts, store_envelope.
  cbn [_encrypted _encryptedCiphers _encryptedIVs].
  now rewrite !map_get_set_ne by exact Hne.
Qed.

Section PluginFacts.
Context `{L : Library}.

(** The pre-save hook, field by field. *)
Lemma preSave_spec (fields : list string) :
  forall (d d' : Doc) (r : option exn) (w w' : World),
    preSave fields d w = ((d', r), w') ->
    paths d' = paths d /\ modifiedPaths d' = modifiedPaths d /\
    forall f,
      (f ∉ fields \/ isModified d f = false \/ is_nullish (get_path d f) = true ->
       stored_parts d' f = stored_parts d f) /\
      (r = None -> f ∈ fields ->
       isModified d f = true -> is_nullish (get_path d f) = false ->
       exists wi wj e,
         encryptData (get_path d f) wi = (Ok e, wj) /\
         stored_parts d' f = (Some (encryptedData e), Some (ciphertext e), Some (iv e))).
Proof.
  induction fields as [|g rest IH]; intros d d' r w w' H; cbn [preSave] in H.
  - injection H as <- <- <-. repeat split; auto.
    intros _ Hin. inversion Hin.
  - destruct (isModified d g) eqn:Hmod; cbn [negb] in H.
    2:{ destruct (IH _ _ _ _ _ H) as (Hp & Hm & Hf). repeat split; auto.
        - intros [Hnin|Hc]; apply Hf; [left|right; exact Hc].
          intros Hin. apply Hnin. now right.
        - intros Hr Hin Hfm Hfp. apply Hf; auto.
          apply elem_of_cons in Hin as [->|Hin]; [congruence|exact Hin]. }
    destruct (is_nullish (get_path d g)) eqn:Hnull.
    { destruct (IH _ _ _ _ _ H) as (Hp & Hm & Hf). repeat split; auto.
      - intros [Hnin|Hc]; apply Hf; [left|right; exact Hc].
        intros Hin. apply Hnin. now right.
      - intros Hr Hin Hfm Hfp. apply Hf; auto.
        apply elem_of_cons in Hin as [->|Hin]; [congruence|exact Hin]. }
    destruct (encryptData (get_path d g) w) as [[e|err] w1] eqn:Henc.
    2:{ injection H as <- <- <-. repeat split; auto. discriminate. }
    destruct (IH _ _ _ _ _ H) as (Hp & Hm & Hf).
    assert (Hmod' : forall f, isModified (store_envelope d g e) f = isModified d f)
      by reflexivity.
    assert (Hget' : forall f, get_path (store_envelope d g e) f = get_path d f)
      by reflexivity.
    split; [exact Hp|]. split; [exact Hm|]. intros f. split.
    + intros Hc.
      assert (g <> f) as Hne.
      { intros ->. destruct Hc as [Hnin|[Hc|Hc]]; [|congruence|congruence].
        apply Hnin. now left. }
      rewrite <- (stored_parts_store_ne d f g e Hne). apply Hf.
      rewrite Hmod', Hget'. destruct Hc as [Hnin|Hc]; [left|right; exact Hc].
      intros Hin. apply Hnin. now right.
    + intros Hr Hin Hfm Hfp.
      destruct (decide (f ∈ rest)) as [Hrest|Hrest].
      * apply Hf; auto.
      * apply elem_of_cons in Hin as [->|Hin]; [|contradiction].
        exists w, w1, e. split; [exact Henc|].
        rewrite <- (stored_parts_store_eq d g e). apply Hf. now left.
Qed.

(** C7. A field that was not modified keeps its stored envelope: after the
    pre-save hook, whether it ended in [next()] or in [next(error)], the
    [_encrypted], [_encryptedCiphers] and [_encryptedIVs] entries of that
    field are the ones it had before; nothing is encrypted again. *)
Theorem unmodified_field_keeps_envelope (fields : list string) (d d' : Doc)
    (r : option exn) (w w' : World) (f : string) :
  preSave fields d w = ((d', r), w') ->
  isModified d f = false ->
  stored_parts d' f = stored_parts d f.
Proof.
  intros H Hf. destruct (preSave_spec fields d d' r w w' H) as (_ & _ & Hs).
  apply (Hs f). auto.
Qed.

(** C8, as the code has it. When the pre-save hook ends in [next()], a
    declared field has been encrypted, and the three parts of the fresh
    envelope stored under its name, if and only if it was modified and its
    value is neither [undefined] nor [null]; the stored parts of every
    other field are left as they were. (An empty string is a value like
    any other: it is encrypted.) *)
Theorem presave_encrypts_modified_present (fields : list string) (d d' : Doc)
    (w w' : World) (f : string) :
  preSave fields d w = ((d', None), w') ->
  f ∈ fields ->
  (isModified d f = true /\ is_nullish (get_path d f) = false ->
   exists wi wj e,
     encryptData (get_path d f) wi = (Ok e, wj) /\
     stored_parts d' f = (Some (encryptedData e), Some (ciphertext e), Some (iv e))) /\
  (isModified d f = false \/ is_nullish (get_path d f) = true ->
   stored_parts d' f = stored_parts d f).
Proof.
  intros H Hin. destruct (preSave_spec fields d d' None w w' H) as (_ & _ & Hs).
  destruct (Hs f) as [Hkeep Henc]. split.
  - intros [Hm Hp]. now apply Henc.
  - intros Hc. apply Hkeep. now right.
Qed.

End PluginFacts.

Section DecryptFacts.
Context `{L : Library}.

(** One turn of the loop: the field gets its outcome in the world the
    loop is in, and the loop goes on from the world that turn leaves. *)
Lemma decryptFields_from_cons (encryptedFields : list string) (d : Doc)
    (g : string) (rest : list string) (acc : gmap string value) (w : World) :
  decryptFields_from encryptedFields d (g :: rest) acc w
  = decryptFields_from encryptedFields d rest
      (<[g := field_outcome encryptedFields d g w]> acc)
      (world_after encryptedFields d [g] w).
Proof.
  unfold world_after, field_outcome. cbn [decryptFields_from].
  unfold mbind, M_bind, bind, try_catch, console_error, mret, M_ret, ret.
  destruct (decryptField encryptedFields d g w) as [[v|err] w1]; reflexivity.
Qed.

(** The world the loop ends in does not depend on the object it fills. *)
Lemma decryptFields_from_world (encryptedFields : list string) (d : Doc)
    (fields : list string) :
  forall (acc acc' : gmap string value) (w : World),
    snd (decryptFields_from encryptedFields d fields acc w)
    = snd (decryptFields_from encryptedFields d fields acc' w).
Proof.
  induction fields as [|g rest IH]; intros acc acc' w.
  - reflexivity.
  - rewrite !decryptFields_from_cons. apply IH.
Qed.

Lemma world_after_cons (encryptedFields : list string) (d : Doc)
    (g : string) (rest : list string) (w : World) :
  world_after encryptedFields d (g :: rest) w
  = world_after encryptedFields d rest (world_after encryptedFields d [g] w).
Proof.
  unfold world_after at 1 2. rewrite decryptFields_from_cons.
  apply decryptFields_from_world.
Qed.

(** The loop never throws; it ends in [world_after]; a field it did not
    go through keeps its entry; and a field it went through holds the
    outcome of [decryptField] in the world the loop was in when it came to
    the field (its last occurrence, were it declared twice). *)
Lemma decryptFields_from_spec (encryptedFields : list string) (d : Doc)
    (fields : list string) :
  forall (acc : gmap string value) (w : World),
    exists obj,
      decryptFields_from encryptedFields d fields acc w
      = (Ok obj, world_after encryptedFields d fields w) /\
      (forall f, f ∉ fields -> obj !! f = acc !! f) /\
      (forall pre f post, fields = (pre ++ f :: post)%list -> f ∉ post ->
         obj !! f = Some (field_outcome encryptedFields d f
                            (world_after encryptedFields d pre w))).
Proof.
  induction fields as [|g rest IH]; intros acc w.
  - exists acc. split; [reflexivity|]. split; [reflexivity|].
    intros [|? ?] f post H; discriminate.
  - rewrite decryptFields_from_cons, (world_after_cons _ d g rest w).
    destruct (IH (<[g := field_outcome encryptedFields d g w]> acc)
                 (world_after encryptedFields d [g] w)) as (obj & Hrun & Hout & Hin).
    exists obj. split; [exact Hrun|]. split.
    + intros f Hnin. rewrite Hout by (intros ?; apply Hnin; now right).
      apply lookup_insert_ne. intros ->. apply Hnin. now left.
    + intros [|g' pre] f post Heq Hpost; cbn in Heq; injection Heq as -> ->.
      * rewrite (Hout f Hpost). apply lookup_insert_eq.
      * rewrite (world_after_cons _ d g' pre w). now apply (Hin pre f post).
Qed.

(** With the key pair on disk, [decryptField] is a function of the
    document and the private key. *)
Lemma decryptField_run (encryptedFields : list string) (d : Doc) (f : string)
    (kp : KeyPair) (w : World) :
  store_holds Kyber kp w ->
  mlkem_loadable w = true ->
  decryptField encryptedFields d f w =
    if negb (bool_decide (f ∈ encryptedFields))
    then (Throw (Error ("Field " +:+ f +:+ " is not configured for encryption")), w)
    else if negb (truthy (map_get (_encrypted d) f)
                  && truthy (map_get (_encryptedCiphers d) f)
                  && truthy (map_get (_encryptedIVs d) f))
    then (Ok (get_path d f), w)
    else
      match open_envelope
              (mkEnvelope (default "" (map_get (_encryptedCiphers d) f))
                          (default "" (map_get (_encrypted d) f))
                          (default "" (map_get (_encryptedIVs d) f)))
              (privateKey kp) with
      | Ok v => (Ok v, w)
      | Throw _ =>
          (Throw (Error "Failed to decrypt data"),
           logged ("Error decrypting field " +:+ f +:+ ":")
                  (logged "Error decrypting data:" w))
      end.
Proof.
  intros Hs Hm. unfold decryptField.
  destruct (negb (bool_decide (f ∈ encryptedFields))); [reflexivity|].
  destruct (negb _); [reflexivity|].
  unfold try_catch. cbv zeta.
  rewrite (decryptData_run _ kp w Hs Hm).
  destruct (open_envelope _ _); reflexivity.
Qed.

(** So, with the pair on disk, a field's outcome is the same in every
    world that holds the pair, and a turn of the loop leaves the key files
    alone. *)
Lemma field_outcome_steady (encryptedFields : list string) (d : Doc) (f : string)
    (kp : KeyPair) (w w' : World) :
  store_holds Kyber kp w -> mlkem_loadable w = true ->
  store_holds Kyber kp w' -> mlkem_loadable w' = true ->
  field_outcome encryptedFields d f w' = field_outcome encryptedFields d f w.
Proof.
  intros Hs Hm Hs' Hm'. unfold field_outcome.
  rewrite (decryptField_run _ d f kp w Hs Hm), (decryptField_run _ d f kp w' Hs' Hm').
  destruct (negb (bool_decide (f ∈ encryptedFields))); [reflexivity|].
  destruct (negb _); [reflexivity|].
  destruct (open_envelope _ _); reflexivity.
Qed.

Lemma world_after_frame (encryptedFields : list string) (d : Doc) (kp : KeyPair)
    (done : list string) :
  forall w : World,
    store_holds Kyber kp w -> mlkem_loadable w = true ->
    store_holds Kyber kp (world_after encryptedFields d done w) /\
    mlkem_loadable (world_after encryptedFields d done w) = true.
Proof.
  induction done as [|g rest IH]; intros w Hs Hm.
  - split; assumption.
  - rewrite world_after_cons. apply IH.
    + unfold world_after. cbn [decryptFields_from].
      unfold mbind, M_bind, bind, try_catch, console_error, mret, M_ret, ret.
      rewrite (decryptField_run _ d g kp w Hs Hm).
      destruct (negb (bool_decide (g ∈ encryptedFields)));
        [|destruct (negb _); [|destruct (open_envelope _ _)]];
        (apply (store_holds_files _ _ w); [reflexivity|exact Hs]).
    + unfold world_after. cbn [decryptFields_from].
      unfold mbind, M_bind, bind, try_catch, console_error, mret, M_ret, ret.
      rewrite (decryptField_run _ d g kp w Hs Hm).
      destruct (negb (bool_decide (g ∈ encryptedFields)));
        [|destruct (negb _); [|destruct (open_envelope _ _)]]; exact Hm.
Qed.

(** What [decryptFields] returns, in general and with the pair on disk. *)
Lemma decryptFields_spec (encryptedFields : list string) (d : Doc) (w : World) :
  exists obj,
    decryptFields encryptedFields d w
    = (Ok obj, world_after encryptedFields d encryptedFields w) /\
    (forall f, f ∉ encryptedFields -> obj !! f = None) /\
    (forall pre f post, encryptedFields = (pre ++ f :: post)%list -> f ∉ post ->
       obj !! f = Some (field_outcome encryptedFields d f
                          (world_after encryptedFields d pre w))) /\
    (forall kp, store_holds Kyber kp w -> mlkem_loadable w = true ->
       forall f, f ∈ encryptedFields ->
         obj !! f = Some (field_outcome encryptedFields d f w)).
Proof.
  destruct (decryptFields_from_spec encryptedFields d encryptedFields ∅ w)
    as (obj & Hrun & Hout & Hin).
  exists obj. split; [exact Hrun|]. split; [|split].
  - intros f Hf. rewrite (Hout f Hf). apply lookup_empty.
  - exact Hin.
  - intros kp Hs Hm f Hf.
    destruct (list_elem_of_split_r _ _ Hf) as (pre & post & Heq & Hpost).
    rewrite (Hin pre f post Heq Hpost). f_equal.
    destruct (world_after_frame encryptedFields d kp pre w Hs Hm) as [Hs' Hm'].
    now apply (field_outcome_steady _ d f kp).
Qed.

(** C9. [decryptFields] never throws, and every declared field is in the
    object it returns with the outcome of its own [decryptField] call in
    the run: the value that call returned or, when that call threw, the
    document's own stored value of the field. A field that fails to
    decrypt therefore changes no other field's entry: with the key pair
    on disk, each entry is what [decryptField] gives for that field
    alone, whatever happened to the fields before it. *)
Theorem decryptFields_catches_per_field (encryptedFields : list string) (d : Doc)
    (w : World) :
  exists obj w',
    decryptFields encryptedFields d w = (Ok obj, w') /\
    (forall pre f post, encryptedFields = (pre ++ f :: post)%list -> f ∉ post ->
       obj !! f = Some (field_outcome encryptedFields d f
                          (world_after encryptedFields d pre w))) /\
    (forall kp, store_holds Kyber kp w -> mlkem_loadable w = true ->
       forall f, f ∈ encryptedFields ->
         obj !! f = Some (field_outcome encryptedFields d f w)).
Proof.
  destruct (decryptFields_spec encryptedFields d w) as (obj & Hrun & _ & Hin & Hsteady).
  exists obj, (world_after encryptedFields d encryptedFields w). auto.
Qed.

End DecryptFacts.

(** ** Safe projections *)

(** C10. For every document and whatever its [decryptFields] method does
    (return the decrypted fields: the try branch; or throw: the catch
    branch), [toSafeJSON] returns an object with no [_encrypted],
    [_encryptedCiphers] or [_encryptedIVs] key, and for a user no
    [password] key either. *)
Theorem toSafeJSON_strips_envelope (decryptFields_method : Doc -> M (gmap string value))
    (d : Doc) (w : World) :
  (exists user w',
     userSchema_toSafeJSON decryptFields_method d w = (Ok user, w') /\
     user !! "_encrypted" = None /\ user !! "_encryptedCiphers" = None /\
     user !! "_encryptedIVs" = None /\ user !! "password" = None) /\
  (exists batch w',
     batchSchema_toSafeJSON decryptFields_method d w = (Ok batch, w') /\
     batch !! "_encrypted" = None /\ batch !! "_encryptedCiphers" = None /\
     batch !! "_encryptedIVs" = None).
Proof.
  unfold userSchema_toSafeJSON, batchSchema_toSafeJSON; unfold_monad.
  destruct (decryptFields_method d w) as [[decrypted|err] w1]; split;
    eexists _, _; (split; [reflexivity|]);
    repeat split;
    repeat first [ apply lookup_delete_eq
                 | rewrite lookup_delete_ne by discriminate ].
Qed.

(** ** The reference library satisfies the laws *)

Module ToyFacts.
Import Toy.

Lemma xorb_cancel_r (x y : bool) : xorb (xorb x y) y = x.
Proof. destruct x, y; reflexivity. Qed.

Lemma xorb_cancel_l (x y : bool) : xorb x (xorb x y) = y.
Proof. destruct x, y; reflexivity. Qed.

Lemma byte_xor_cancel_r (a b : byte) : byte_xor (byte_xor a b) b = a.
Proof.
  unfold byte_xor.
  destruct (Byte.to_bits a) as (a0 & a1 & a2 & a3 & a4 & a5 & a6 & a7) eqn:Ea.
  destruct (Byte.to_bits b) as (b0 & b1 & b2 & b3 & b4 & b5 & b6 & b7) eqn:Eb.
  rewrite Byte.to_bits_of_bits, !xorb_cancel_r, <- Ea.
  apply Byte.of_bits_to_bits.
Qed.

Lemma byte_xor_cancel_l (a b : byte) : byte_xor a (byte_xor a b) = b.
Proof.
  unfold byte_xor.
  destruct (Byte.to_bits a) as (a0 & a1 & a2 & a3 & a4 & a5 & a6 & a7) eqn:Ea.
  destruct (Byte.to_bits b) as (b0 & b1 & b2 & b3 & b4 & b5 & b6 & b7) eqn:Eb.
  rewrite Byte.to_bits_of_bits, !xorb_cancel_l, <- Eb.
  apply Byte.of_bits_to_bits.
Qed.

Lemma xor_bytes_cancel (a : list byte) :
  forall b, length a = length b -> xor_bytes (xor_bytes a b) b = a.
Proof.
  unfold xor_bytes.
  induction a as [|x a IH]; intros [|y b] Hlen; try discriminate; [reflexivity|].
  cbn. rewrite byte_xor_cancel_r. f_equal. apply IH. now injection Hlen.
Qed.

Lemma key_of_length (seed : list byte) : length (key_of seed) = 4.
Proof. apply length_resize. Qed.

Lemma unmask_mask (m : byte) (bs : list byte) :
  byte_xor m <$> (byte_xor m <$> bs) = bs.
Proof.
  induction bs as [|b bs IH]; cbn; [reflexivity|].
  now rewrite byte_xor_cancel_l, IH.
Qed.

Lemma unpad_pad (bs : list byte) : unpad (pad bs) = bs.
Proof.
  unfold unpad, pad. rewrite List.last_last, length_app.
  change (N.to_nat (Byte.to_N x01)) with 1.
  replace (length bs + length [x01] - 1) with (length bs) by (cbn; lia).
  apply take_app_length.
Qed.

Lemma codec_laws : CodecLaws lib.
Proof.
  split.
  - intros seed pk sk coins ct ss Hk He. cbn in Hk, He |- *.
    injection Hk as <- <-. injection He as <- <-. cbn [tail].
    f_equal. apply xor_bytes_cancel. now rewrite !key_of_length.
  - intros bs. apply hex_decode_encode.
  - intros s key iv c H. cbn in H |- *. unfold aes_encrypt in H.
    destruct (forallb is_ascii_byte (list_byte_of_string s)) eqn:Hascii; [|discriminate].
    injection H as <-. eexists. split; [reflexivity|].
    unfold utf8_stringify.
    rewrite hex_decode_encode, unmask_mask, unpad_pad, Hascii.
    now rewrite string_of_list_byte_of_string.
Qed.

Lemma tag_length (key msg : list byte) : length (tag key msg) = signature_bytes.
Proof. unfold tag. now rewrite length_app, !length_resize. Qed.

Lemma signature_laws : SignatureLaws lib signature_bytes.
Proof.
  split.
  - intros seed pk sk msg r sig Hk Hs. cbn in Hk, Hs |- *.
    injection Hk as <- <-. injection Hs as <-. cbn [tail].
    unfold bytes_eqb. f_equal. apply andb_true_intro.
    split; apply bool_decide_eq_true_2; [apply tag_length|reflexivity].
  - intros sig msg pk Hv. cbn in Hv. injection Hv as Hv.
    apply andb_prop in Hv as [Hv _]. exact (bool_decide_eq_true_1 _ Hv).
Qed.

End ToyFacts.

(** ** The theorems at work on the reference library *)

Section Examples.
Import Toy.
Local Existing Instance lib.

Lemma world1_kyber_ready : store_ready Kyber world1.
Proof. right. split; reflexivity. Qed.

Lemma world1_dilithium_ready : store_ready Dilithium world1.
Proof. right. split; reflexivity. Qed.

Lemma world2_holds_pair2 : store_holds Kyber kyber_pair2 world2.
Proof.
  split.
  - exists (File "0212345678" true true). repeat split; vm_compute; reflexivity.
  - exists (File "0112345678" true true). repeat split; vm_compute; reflexivity.
Qed.

(** C1: a structured value and a plain string come back exactly. *)
Lemma codec_roundtrip_witness :
  (exists e w1, encryptData order world1 = (Ok e, w1) /\
                decryptData e w1 = (Ok order, w1)) /\
  (exists e w1, encryptData (VStr "Organic Wheat") world1 = (Ok e, w1) /\
                decryptData e w1 = (Ok (VStr "Organic Wheat"), w1)).
Proof.
  split.
  - eexists _, _. split; [vm_compute; reflexivity|].
    apply (codec_roundtrip ToyFacts.codec_laws order world1);
      [exact world1_kyber_ready|vm_compute; reflexivity|].
    split; [reflexivity|]. intros t Ht. injection Ht as <-. vm_compute. reflexivity.
  - eexists _, _. split; [vm_compute; reflexivity|].
    apply (codec_roundtrip ToyFacts.codec_laws (VStr "Organic Wheat") world1);
      [exact world1_kyber_ready|vm_compute; reflexivity|].
    vm_compute. reflexivity.
Defined.

(** C1 fails on a string that is JSON text: the digits come back as a
    number. (It fails as well on a structured value that JSON does not
    reproduce: an array holding [undefined] comes back holding [null].) *)
Lemma digits_string_decrypts_to_number :
  (exists e w1, encryptData (VStr "123") world1 = (Ok e, w1) /\
                decryptData e w1 = (Ok (VNum 123), w1) /\
                VNum 123 <> VStr "123") /\
  (exists e w1, encryptData (VArr [VUndefined]) world1 = (Ok e, w1) /\
                decryptData e w1 = (Ok (VArr [VNull]), w1) /\
                VArr [VNull] <> VArr [VUndefined]).
Proof.
  split; eexists _, _; (split; [vm_compute; reflexivity|]);
    (split; [vm_compute; reflexivity|discriminate]).
Qed.

(** C2: under the second key pair a damaged envelope makes UTF-8 decoding
    throw, and [decryptData] fails. *)
Lemma decrypt_fails_witness :
  decryptData (mkEnvelope "1424344c" "ffff06" "01020000000000000000000000000000") world2
  = (Throw (Error "Failed to decrypt data"), logged "Error decrypting data:" world2).
Proof.
  rewrite (decrypt_fails_only_if_primitive_throws _ kyber_pair2 world2
             world2_holds_pair2 eq_refl).
  reflexivity.
Defined.

(** C2 fails: the envelope made under the first key pair is opened with
    the unrelated second pair, and a value is returned, not an error. *)
Lemma decrypt_with_other_key_returns_value :
  encryptData (VStr "hello") world1 = (Ok hello_envelope, snd (encryptData (VStr "hello") world1)) /\
  store_holds Kyber kyber_pair1 (snd (encryptData (VStr "hello") world1)) /\
  store_holds Kyber kyber_pair2 world2 /\
  decryptData hello_envelope world2 = (Ok (VStr "kfoo"), world2).
Proof.
  split; [vm_compute; reflexivity|].
  split; [|split; [exact world2_holds_pair2|vm_compute; reflexivity]].
  split.
  - exists (File "0211223344" true true). repeat split; vm_compute; reflexivity.
  - exists (File "0111223344" true true). repeat split; vm_compute; reflexivity.
Qed.

(** C3: with an unreadable private key file the loader logs and generates. *)
Lemma read_failure_regenerates_witness :
  loadOrGenerate Kyber world_unreadable
  = generate Kyber (logged "Error loading Kyber keys:" world_unreadable).
Proof.
  exact (proj1 (read_failure_regenerates Kyber world_unreadable
                  (File "0211223344" false true) (File "0111223344" true true)
                  eq_refl eq_refl)).
Defined.

(** C3 fails: the private key file exists and cannot be read, yet the
    loader returns a pair, a new one, and has overwritten the key file. *)
Lemma unreadable_key_is_replaced :
  content <$> (files world_unreadable !! "keys/kyber_private.key") = Some "0211223344" /\
  readable <$> (files world_unreadable !! "keys/kyber_private.key") = Some false /\
  fst (loadOrGenerateKyberKeys world_unreadable) = Ok kyber_pair2 /\
  content <$> (files (snd (loadOrGenerateKyberKeys world_unreadable))
                 !! "keys/kyber_private.key") = Some "0212345678".
Proof. repeat split; vm_compute; reflexivity. Qed.

(** C5: the token's signature is genuine, and the verifier refuses it. *)
Lemma genuine_signature_witness :
  exists sig msg keys,
    signData (VStr "token-abc123") world1
    = (Ok (VObj [("data", VStr "token-abc123"); ("signature", VStr (hex_encode sig))]),
       snd (signData (VStr "token-abc123") world1)) /\
    payload_bytes (VStr "token-abc123") = Ok msg /\
    store_holds Dilithium keys (snd (signData (VStr "token-abc123") world1)) /\
    dsa_verify sig msg (publicKey keys) = Ok true /\
    fst (verifySignature
           (VObj [("data", VStr "token-abc123"); ("signature", VStr (hex_encode sig))])
           (snd (signData (VStr "token-abc123") world1)))
    = Ok false.
Proof.
  destruct (genuine_signature_is_refused signature_bytes ToyFacts.signature_laws
              (VStr "token-abc123") world1
              (snd (signData (VStr "token-abc123") world1))
              (match fst (signData (VStr "token-abc123") world1) with
               | Ok pkg => pkg
               | Throw _ => VNull
               end)
              world1_dilithium_ready)
    as (sig & msg & keys & Hpkg & Hp & Hs & Hv & Hfalse).
  - vm_compute. reflexivity.
  - intros msg Hmsg. injection Hmsg as <-. vm_compute. discriminate.
  - exists sig, msg, keys. rewrite <- Hpkg.
    split; [vm_compute; reflexivity|]. auto.
Defined.

(** C6: the first call generates and writes, the second reads the same. *)
Lemma key_loading_idempotent_witness :
  exists kp w1,
    loadOrGenerate Kyber world1 = (Ok kp, w1) /\
    loadOrGenerate Kyber w1 = (Ok kp, w1).
Proof.
  eexists _, _. split; [vm_compute; reflexivity|].
  apply (key_loading_idempotent Kyber world1).
  - intros f Hf. discriminate Hf.
  - intros f Hf. discriminate Hf.
  - vm_compute. reflexivity.
Defined.

(** C7: the untouched [cropName] keeps its envelope through a save. *)
Lemma unmodified_field_witness :
  stored_parts (fst (fst (preSave batchFields batch_doc world1))) "cropName"
  = stored_parts batch_doc "cropName".
Proof.
  apply (unmodified_field_keeps_envelope batchFields batch_doc _
           (snd (fst (preSave batchFields batch_doc world1))) world1
           (snd (preSave batchFields batch_doc world1)) "cropName").
  - destruct (preSave batchFields batch_doc world1) as [[d' r] w']. reflexivity.
  - vm_compute. reflexivity.
Defined.

(** C8: the modified [location] is encrypted by the save. *)
Lemma presave_witness :
  exists wi wj e,
    encryptData (get_path batch_doc "location") wi = (Ok e, wj) /\
    stored_parts (fst (fst (preSave batchFields batch_doc world1))) "location"
    = (Some (encryptedData e), Some (ciphertext e), Some (iv e)).
Proof.
  apply (presave_encrypts_modified_present batchFields batch_doc _ world1
           (snd (preSave batchFields batch_doc world1)) "location").
  - vm_compute. reflexivity.
  - vm_compute. repeat constructor.
  - split; vm_compute; reflexivity.
Defined.

(** C8 fails on the empty string: the optional [cropHealth] of a batch is
    set to the empty string, and the save stores an envelope for it all
    the same. *)
Lemma empty_string_is_encrypted :
  get_path (mkDoc (<["cropHealth" := VStr ""]> (<["cropName" := VStr "Wheat"]> ∅))
                  {["cropHealth"]} (Some ∅) (Some ∅) (Some ∅)) "cropHealth" = VStr "" /\
  isModified (mkDoc (<["cropHealth" := VStr ""]> (<["cropName" := VStr "Wheat"]> ∅))
                    {["cropHealth"]} (Some ∅) (Some ∅) (Some ∅)) "cropHealth" = true /\
  snd (fst (preSave batchFields
              (mkDoc (<["cropHealth" := VStr ""]> (<["cropName" := VStr "Wheat"]> ∅))
                     {["cropHealth"]} (Some ∅) (Some ∅) (Some ∅)) world1)) = None /\
  stored_parts (mkDoc (<["cropHealth" := VStr ""]> (<["cropName" := VStr "Wheat"]> ∅))
                      {["cropHealth"]} (Some ∅) (Some ∅) (Some ∅)) "cropHealth"
  = (None, None, None) /\
  stored_parts
    (fst (fst (preSave batchFields
                 (mkDoc (<["cropHealth" := VStr ""]> (<["cropName" := VStr "Wheat"]> ∅))
                        {["cropHealth"]} (Some ∅) (Some ∅) (Some ∅)) world1)))
    "cropHealth"
  = (Some "05", Some "1424344c", Some "01020000000000000000000000000000").
Proof. repeat split; vm_compute; reflexivity. Qed.

(** C9: the envelope of [cropName] is damaged, that of [cropHealth] is
    sound; the first comes back as the document has it, the second
    decrypted. *)
Lemma decryptFields_witness :
  exists obj w',
    decryptFields batchFields
      (mkDoc (<["cropName" := VStr "raw"]> (<["cropHealth" := VStr "stale"]> ∅)) ∅
             (Some (<["cropName" := "ffff06"]> {["cropHealth" := "476f6f6401"]}))
             (Some (<["cropName" := "1424344c"]> {["cropHealth" := "183f5a75"]}))
             (Some (<["cropName" := "01020000000000000000000000000000"]>
                      {["cropHealth" := "0a0b0c0d000000000000000000000000"]})))
      world2 = (Ok obj, w') /\
    obj !! "cropName" = Some (VStr "raw") /\
    obj !! "cropHealth" = Some (VStr "Good").
Proof.
  destruct (decryptFields_catches_per_field batchFields
              (mkDoc (<["cropName" := VStr "raw"]> (<["cropHealth" := VStr "stale"]> ∅)) ∅
                 (Some (<["cropName" := "ffff06"]> {["cropHealth" := "476f6f6401"]}))
                 (Some (<["cropName" := "1424344c"]> {["cropHealth" := "183f5a75"]}))
                 (Some (<["cropName" := "01020000000000000000000000000000"]>
                          {["cropHealth" := "0a0b0c0d000000000000000000000000"]})))
              world2) as (obj & w' & Hrun & _ & Hsteady).
  exists obj, w'. split; [exact Hrun|].
  split; rewrite (Hsteady kyber_pair2 world2_holds_pair2 eq_refl);
    first [ vm_compute; reflexivity | vm_compute; repeat constructor ].
Defined.

End Examples.

(** * Further properties of the code *)

(** ** Hex strings *)

Lemma hex_encode_length (bs : list byte) :
  String.length (hex_encode bs) = 2 * length bs.
Proof.
  induction bs as [|b bs IH]; cbn [hex_encode hex_of_byte String.length length];
    [reflexivity|]. rewrite IH. lia.
Qed.

Lemma hex_decode_app (bs : list byte) (rest : string) :
  hex_decode (hex_encode bs +:+ rest) = (bs ++ hex_decode rest)%list.
Proof.
  induction bs as [|b bs IH]; [reflexivity|].
  cbn [hex_encode].
  change (hex_of_byte b (hex_encode bs) +:+ rest)
    with (hex_of_byte b (hex_encode bs +:+ rest)).
  rewrite hex_decode_byte, IH. reflexivity.
Qed.

(** ** The envelope codec, further *)

Section CodecMore.
Context `{L : Library}.

(** [encryptData] once the key pair is on disk. *)
Lemma encryptData_run (v : value) (kp : KeyPair) (w : World) :
  store_holds Kyber kp w ->
  mlkem_loadable w = true ->
  encryptData v w =
    match canonical_value v with
    | Throw _ =>
        (Throw (Error "Failed to encrypt data"), logged "Error encrypting data:" w)
    | Ok dataString =>
        match kem_encapsulate (publicKey kp) (resize 32 x00 (rand w (tick w))) with
        | Throw _ =>
            (Throw (Error "Failed to encrypt data"),
             logged "Error encrypting data:" (set_tick (S (tick w)) w))
        | Ok (ct, ss) =>
            match AES_encrypt dataString (Hex_parse (hex_encode ss))
                              (resize 16 x00 (rand w (S (tick w)))) with
            | Ok c =>
                (Ok (mkEnvelope (hex_encode ct) c
                                (hex_encode (resize 16 x00 (rand w (S (tick w)))))),
                 set_tick (S (S (tick w))) w)
            | Throw _ =>
                (Throw (Error "Failed to encrypt data"),
                 logged "Error encrypting data:" (set_tick (S (S (tick w))) w))
            end
        end
    end.
Proof.
  intros Hs Hm. apply load_store_holds in Hs. cbn [loadOrGenerate] in Hs.
  unfold encryptData, logged.
  unfold try_catch, mbind, M_bind. unfold bind at 1. rewrite canonical_run.
  destruct (canonical_value v) as [dataString|err]; [|reflexivity].
  unfold bind at 1. unfold getMlKEM. rewrite Hm.
  unfold bind at 1. rewrite Hs.
  unfold_monad.
  destruct (kem_encapsulate (publicKey kp) (resize 32 x00 (rand w (tick w))))
    as [[ct ss]|err]; [|reflexivity].
  change (rand (set_tick (S (tick w)) w) (tick (set_tick (S (tick w)) w)))
    with (rand w (S (tick w))).
  destruct (AES_encrypt dataString (Hex_parse (hex_encode ss))
              (resize 16 x00 (rand w (S (tick w))))); reflexivity.
Qed.


(** A successful encryption from a store that holds a pair leaves the
    files and the module flags as they were. *)
Lemma encrypt_frame (v : value) (kp : KeyPair) (w w1 : World) (e : Envelope) :
  store_holds Kyber kp w ->
  encryptData v w = (Ok e, w1) ->
  files w1 = files w /\ mlkem_loadable w1 = mlkem_loadable w.
Proof.
  intros Hs Henc.
  destruct (encryptData_ok v w w1 e Henc)
    as (dataString & keys & w0 & coins & ct & ss & ivb &
        Hc & Hm & Hl & Hk & Ha & Hct & Hiv & Hfiles & Hflag).
  cbn [loadOrGenerate] in Hl.
  pose proof (load_store_holds Kyber kp w Hs) as Hl'. cbn [loadOrGenerate] in Hl'.
  rewrite Hl' in Hl. injection Hl as <- <-. auto.
Qed.

(** X1. An envelope that [encryptData] returns always has an [iv] of 32
    hex characters, which decode to the 16 random bytes, and a
    [ciphertext] that is the hex encoding of the bytes it decodes to. *)
Theorem envelope_shape (v : value) (w w1 : World) (e : Envelope) :
  encryptData v w = (Ok e, w1) ->
  String.length (iv e) = 32 /\
  length (hex_decode (iv e)) = 16 /\
  hex_encode (hex_decode (ciphertext e)) = ciphertext e /\
  String.length (ciphertext e) = 2 * length (hex_decode (ciphertext e)).
Proof.
  unfold encryptData. unfold try_catch at 1. unfold mbind, M_bind, bind at 1.
  rewrite canonical_run.
  destruct (canonical_value v) as [dataString|err]; [|discriminate].
  unfold bind at 1. unfold getMlKEM.
  destruct (mlkem_loadable w); [|discriminate].
  unfold bind at 1.
  destruct (loadOrGenerateKyberKeys w) as [[keys|err] w0]; [|discriminate].
  unfold_monad. intros H.
  repeat case_match; simplify_eq. cbn [iv ciphertext].
  rewrite !hex_decode_encode, !hex_encode_length, !length_resize. auto.
Qed.

(** X2. In steady state (the key pair on disk, the module loaded)
    [encryptData] writes no file and leaves the random source's stream as
    it is, drawing at most twice from it. When it returns an envelope it
    has drawn exactly twice and logged nothing, and the envelope's [iv]
    is the second draw (the first being the encapsulation coins);
    whichever step throws, the caller sees [Failed to encrypt data] after
    exactly one more line on the console. *)
Theorem encryptData_steady_state (v : value) (kp : KeyPair) (w w1 : World)
    (r : result Envelope) :
  store_holds Kyber kp w ->
  mlkem_loadable w = true ->
  encryptData v w = (r, w1) ->
  files w1 = files w /\ rand w1 = rand w /\ tick w1 <= tick w + 2 /\
  match r with
  | Ok e =>
      console w1 = console w /\ tick w1 = tick w + 2 /\
      hex_decode (iv e) = resize 16 x00 (rand w (S (tick w)))
  | Throw err =>
      err = Error "Failed to encrypt data" /\
      console w1 = (console w ++ ["Error encrypting data:"])%list
  end.
Proof.
  intros Hs Hm. rewrite (encryptData_run v kp w Hs Hm). unfold logged.
  intros H. repeat case_match; simplify_eq; cbn;
    rewrite ?hex_decode_encode; repeat split; lia.
Qed.


End CodecMore.

(** ** The key store, further *)

Section KeyStoreMore.
Context `{L : Library}.

Lemma key_paths_cross (s s' : scheme) :
  s <> s' ->
  private_key_path s <> private_key_path s' /\
  private_key_path s <> public_key_path s' /\
  public_key_path s <> private_key_path s' /\
  public_key_path s <> public_key_path s'.
Proof.
  intros Hne. destruct s, s'; try contradiction; repeat split;
    intros H; apply append_inj_l in H; discriminate H.
Qed.

Lemma writeFileSync_other (p s q : string) (w w' : World) (r : result unit) :
  writeFileSync p s w = (r, w') -> q <> p -> files w' !! q = files w !! q.
Proof.
  unfold writeFileSync. intros H Hne.
  repeat case_match; simplify_eq; cbn; try reflexivity;
    apply lookup_insert_ne; congruence.
Qed.

Lemma generate_other_files (s : scheme) (w w1 : World) (r : result KeyPair) (q : string) :
  generate s w = (r, w1) ->
  q <> private_key_path s -> q <> public_key_path s ->
  files w1 !! q = files w !! q.
Proof.
  destruct s; cbn [generate private_key_path public_key_path];
    unfold generateKyberKeys, generateDilithiumKeys; unfold_monad; intros H Hq1 Hq2.
  all: repeat case_match; simplify_eq; cbn; try reflexivity.
  all: repeat match goal with
       | H1 : writeFileSync _ _ _ = _ |- _ =>
           apply (fun H => writeFileSync_other _ _ q _ _ _ H) in H1; [|assumption]
       end.
  all: cbn in *; congruence.
Qed.

Lemma load_other_files (s : scheme) (w w1 : World) (r : result KeyPair) (q : string) :
  loadOrGenerate s w = (r, w1) ->
  q <> private_key_path s -> q <> public_key_path s ->
  files w1 !! q = files w !! q.
Proof.
  intros Hload Hq1 Hq2.
  destruct (files w !! private_key_path s) as [fpriv|] eqn:E1;
    [destruct (files w !! public_key_path s) as [fpub|] eqn:E2|].
  - rewrite (load_existing s w fpriv fpub E1 E2) in Hload.
    destruct (readable fpriv && readable fpub).
    + now injection Hload as _ <-.
    + now rewrite (generate_other_files s _ w1 r q Hload Hq1 Hq2).
  - rewrite load_missing in Hload by (right; exact E2).
    destruct (generate s w) as [[kp0|e] w0] eqn:G.
    + injection Hload as _ <-. exact (generate_other_files s w w0 _ q G Hq1 Hq2).
    + rewrite (generate_other_files s _ w1 r q Hload Hq1 Hq2). cbn.
      exact (generate_other_files s w w0 _ q G Hq1 Hq2).
  - rewrite load_missing in Hload by (left; exact E1).
    destruct (generate s w) as [[kp0|e] w0] eqn:G.
    + injection Hload as _ <-. exact (generate_other_files s w w0 _ q G Hq1 Hq2).
    + rewrite (generate_other_files s _ w1 r q Hload Hq1 Hq2). cbn.
      exact (generate_other_files s w w0 _ q G Hq1 Hq2).
Qed.

Lemma load_readable (s : scheme) (q : string) (w w1 : World) (r : result KeyPair) :
  loadOrGenerate s w = (r, w1) ->
  readable_if_present q w -> readable_if_present q w1.
Proof.
  intros Hload Hq.
  destruct (files w !! private_key_path s) as [fpriv|] eqn:E1;
    [destruct (files w !! public_key_path s) as [fpub|] eqn:E2|].
  - rewrite (load_existing s w fpriv fpub E1 E2) in Hload.
    destruct (readable fpriv && readable fpub).
    + now injection Hload as _ <-.
    + exact (generate_readable s q _ w1 r Hload Hq).
  - rewrite load_missing in Hload by (right; exact E2).
    destruct (generate s w) as [[kp0|e] w0] eqn:G.
    + injection Hload as _ <-. exact (generate_readable s q w w0 _ G Hq).
    + apply (generate_readable s q _ w1 r Hload).
      exact (generate_readable s q w w0 _ G Hq).
  - rewrite load_missing in Hload by (left; exact E1).
    destruct (generate s w) as [[kp0|e] w0] eqn:G.
    + injection Hload as _ <-. exact (generate_readable s q w w0 _ G Hq).
    + apply (generate_readable s q _ w1 r Hload).
      exact (generate_readable s q w w0 _ G Hq).
Qed.

(** A pair the loader returns is on disk afterwards. *)
Lemma load_ok_holds (s : scheme) (w w1 : World) (kp : KeyPair) :
  readable_if_present (private_key_path s) w ->
  readable_if_present (public_key_path s) w ->
  loadOrGenerate s w = (Ok kp, w1) ->
  store_holds s kp w1.
Proof.
  intros Hpriv Hpub Hload.
  destruct (files w !! private_key_path s) as [fpriv|] eqn:E1;
    [destruct (files w !! public_key_path s) as [fpub|] eqn:E2|].
  - rewrite (load_existing s w fpriv fpub E1 E2) in Hload.
    rewrite (Hpriv _ E1), (Hpub _ E2) in Hload. cbn in Hload.
    injection Hload as <- <-. split; eexists; cbn; eauto.
  - rewrite load_missing in Hload by (right; exact E2).
    destruct (generate s w) as [[kp0|e] w0] eqn:G.
    + injection Hload as -> ->. now apply (generate_ok s w w1 kp G).
    + apply (generate_ok s _ w1 kp Hload); unfold logged, readable_if_present; cbn;
        [apply (generate_readable s _ w w0 _ G Hpriv)
        |apply (generate_readable s _ w w0 _ G Hpub)].
  - rewrite load_missing in Hload by (left; exact E1).
    destruct (generate s w) as [[kp0|e] w0] eqn:G.
    + injection Hload as -> ->. now apply (generate_ok s w w1 kp G).
    + apply (generate_ok s _ w1 kp Hload); unfold logged, readable_if_present; cbn;
        [apply (generate_readable s _ w w0 _ G Hpriv)
        |apply (generate_readable s _ w w0 _ G Hpub)].
Qed.

(** X4. The two key pairs are kept apart: loading or generating the pair
    of one scheme, whether it succeeds or throws, leaves both key files of
    the other scheme exactly as they were. *)
Theorem schemes_do_not_interfere (s s' : scheme) (w w1 : World) (r : result KeyPair) :
  s <> s' ->
  loadOrGenerate s w = (r, w1) ->
  files w1 !! private_key_path s' = files w !! private_key_path s' /\
  files w1 !! public_key_path s' = files w !! public_key_path s'.
Proof.
  intros Hne Hload.
  destruct (key_paths_cross s s' Hne) as (H1 & H2 & H3 & H4).
  split; apply (load_other_files s w w1 r _ Hload); congruence.
Qed.

(** X5. Key generation is not atomic. The private key is written first:
    when that write succeeds and the public key file cannot be written,
    the generator throws its [Failed to generate] error, but the private
    key file already holds the new secret key, beside the public key file
    of before. *)
Theorem generation_is_not_atomic (s : scheme) (w : World) (pk sk : list byte)
    (fpub : file) :
  module_loadable s w = true ->
  keygen s (resize (seed_size s) x00 (rand w (tick w))) = Ok (pk, sk) ->
  can_write (private_key_path s) w = true ->
  files w !! public_key_path s = Some fpub ->
  writable fpub = false ->
  exists w',
    generate s w = (Throw (Error (generate_error s)), w') /\
    content <$> (files w' !! private_key_path s) = Some (hex_encode sk) /\
    files w' !! public_key_path s = Some fpub.
Proof.
  pose proof (key_paths_distinct s) as Hne.
  intros Hm Hk Hw Hf Hnw. unfold can_write in Hw.
  destruct (files w !! private_key_path s) as [f0|] eqn:E0.
  all: destruct s; cbn [module_loadable keygen seed_size private_key_path public_key_path
                   generate generate_error] in *;
    unfold generateKyberKeys, generateDilithiumKeys; unfold_monad;
    rewrite Hm; cbn [tick rand set_tick]; rewrite Hk.
  all: unfold writeFileSync; cbn [files set_tick set_files dir_writable].
  all: rewrite E0, Hw; cbn [files set_tick set_files dir_writable].
  all: rewrite lookup_insert_ne by exact Hne.
  all: rewrite Hf, Hnw.
  all: eexists; split; [reflexivity|].
  all: cbn [files set_console set_files set_tick].
  all: rewrite lookup_insert_eq, lookup_insert_ne by exact Hne.
  all: split; [reflexivity|exact Hf].
Qed.

Lemma catch_rethrows {A} (m : M A) (label : string) (e0 e : exn) (w w1 : World) :
  try_catch m (fun _ => _ ← console_error label; throw e0) w = (Throw e, w1) ->
  e = e0.
Proof.
  unfold_monad. intros H. repeat case_match; simplify_eq. reflexivity.
Qed.

Lemma load_throws (s : scheme) (w w1 : World) (e : exn) :
  loadOrGenerate s w = (Throw e, w1) -> e = Error (generate_error s).
Proof.
  intros Hload.
  destruct (files w !! private_key_path s) as [fpriv|] eqn:E1;
    [destruct (files w !! public_key_path s) as [fpub|] eqn:E2|].
  - rewrite (load_existing s w fpriv fpub E1 E2) in Hload.
    destruct (readable fpriv && readable fpub); [discriminate|].
    exact (generate_throws s _ w1 e Hload).
  - rewrite load_missing in Hload by (right; exact E2).
    destruct (generate s w) as [[kp0|e0] w0] eqn:G; [discriminate|].
    exact (generate_throws s _ w1 e Hload).
  - rewrite load_missing in Hload by (left; exact E1).
    destruct (generate s w) as [[kp0|e0] w0] eqn:G; [discriminate|].
    exact (generate_throws s _ w1 e Hload).
Qed.

(** X6. No library error reaches a caller of the core as it is: whatever
    fails inside, [encryptData], [decryptData], [signData] and
    [initPQCrypto] throw their own fixed error, and the key loaders throw
    the generator's [Failed to generate] error. *)
Theorem errors_are_the_functions_own (v : value) (e : Envelope) (s : scheme)
    (w w1 : World) (err : exn) :
  (encryptData v w = (Throw err, w1) -> err = Error "Failed to encrypt data") /\
  (decryptData e w = (Throw err, w1) -> err = Error "Failed to decrypt data") /\
  (signData v w = (Throw err, w1) -> err = Error "Failed to sign data") /\
  (initPQCrypto w = (Throw err, w1) -> err = Error "Failed to initialize PQCrypto") /\
  (generate s w = (Throw err, w1) -> err = Error (generate_error s)) /\
  (loadOrGenerate s w = (Throw err, w1) -> err = Error (generate_error s)).
Proof.
  repeat split.
  - apply catch_rethrows.
  - apply catch_rethrows.
  - apply catch_rethrows.
  - apply catch_rethrows.
  - apply generate_throws.
  - apply load_throws.
Qed.

(** X7. Initialisation settles the key store. If [initPQCrypto] returns,
    both key pairs are on disk and readable afterwards, and running it
    again returns without changing anything: no key is generated twice.
    The key files are assumed readable where they exist. *)
Theorem initPQCrypto_settles_the_store (w w1 : World) :
  (forall s, readable_if_present (private_key_path s) w /\
             readable_if_present (public_key_path s) w) ->
  initPQCrypto w = (Ok tt, w1) ->
  (exists kyber dilithium,
     store_holds Kyber kyber w1 /\ store_holds Dilithium dilithium w1) /\
  initPQCrypto w1 = (Ok tt, w1).
Proof.
  intros Hr Hinit.
  unfold initPQCrypto in Hinit. unfold try_catch, mbind, M_bind, bind in Hinit.
  destruct (loadOrGenerateKyberKeys w) as [[kk|e] wa] eqn:Hk;
    [|unfold_monad; discriminate].
  destruct (loadOrGenerateDilithiumKeys wa) as [[kd|e] wb] eqn:Hd;
    [|unfold_monad; discriminate].
  unfold_monad. injection Hinit as <-.
  destruct (Hr Kyber) as [Hk1 Hk2]. destruct (Hr Dilithium) as [Hd1 Hd2].
  assert (Hsk : store_holds Kyber kk wa) by exact (load_ok_holds Kyber w wa kk Hk1 Hk2 Hk).
  assert (Hsd : store_holds Dilithium kd wb).
  { apply (load_ok_holds Dilithium wa wb kd);
      [exact (load_readable Kyber _ w wa _ Hk Hd1)
      |exact (load_readable Kyber _ w wa _ Hk Hd2)|exact Hd]. }
  assert (Hsk' : store_holds Kyber kk wb).
  { assert (Hne : Dilithium <> Kyber) by discriminate.
    destruct (key_paths_cross Dilithium Kyber Hne) as (H1 & H2 & H3 & H4).
    destruct Hsk as [(f1 & Hf1 & Hp1) (f2 & Hf2 & Hp2)].
    split; eexists; (split; [|eassumption]).
    - rewrite (load_other_files Dilithium wa wb _ _ Hd); [exact Hf1|congruence|congruence].
    - rewrite (load_other_files Dilithium wa wb _ _ Hd); [exact Hf2|congruence|congruence]. }
  split; [exists kk, kd; split; assumption|].
  unfold initPQCrypto, try_catch, mbind, M_bind, bind.
  pose proof (load_store_holds Kyber kk wb Hsk') as E1.
  pose proof (load_store_holds Dilithium kd wb Hsd) as E2.
  cbn [loadOrGenerate] in E1, E2. rewrite E1, E2. reflexivity.
Qed.

End KeyStoreMore.

(** ** The signer and verifier, further *)

Section SignerMore.
Context `{L : Library}.

(** The verifier reads a string signature through [hex_decode] only. *)
Lemma verifySignature_hex (data : value) (h h' : string) (w : World) :
  hex_decode h = hex_decode h' ->
  verifySignature (signed_package data h) w = verifySignature (signed_package data h') w.
Proof.
  intros Hh. unfold verifySignature, signed_package.
  unfold_monad.
  cbn [destructure_package prop_lookup String.eqb Ascii.eqb Bool.eqb Buffer_from_hex].
  rewrite Hh. reflexivity.
Qed.

(** [verifySignature] on a package [{ data, signature }], step by step. *)
Lemma verifySignature_unfold (data signature : value) (w : World) :
  verifySignature (VObj [("data", data); ("signature", signature)]) w =
    match canonical_value data with
    | Throw _ => (Ok false, logged "Error verifying signature:" w)
    | Ok dataString =>
        if mldsa_loadable w then
          match loadOrGenerateDilithiumKeys w with
          | (Throw _, w0) => (Ok false, logged "Error verifying signature:" w0)
          | (Ok keys, w0) =>
              match Buffer_from_utf8 dataString with
              | Throw _ => (Ok false, logged "Error verifying signature:" w0)
              | Ok message =>
                  match Buffer_from_hex signature with
                  | Throw _ => (Ok false, logged "Error verifying signature:" w0)
                  | Ok sigBytes =>
                      match dsa_verify message sigBytes (publicKey keys) with
                      | Ok b => (Ok b, w0)
                      | Throw _ => (Ok false, logged "Error verifying signature:" w0)
                      end
                  end
              end
          end
        else (Ok false, logged "Error verifying signature:" w)
    end.
Proof.
  unfold verifySignature, logged.
  unfold try_catch, mbind, M_bind. unfold bind at 1. unfold call at 1.
  cbn [destructure_package prop_lookup String.eqb Ascii.eqb Bool.eqb]. cbn beta iota.
  unfold bind at 1. rewrite canonical_run.
  destruct (canonical_value data) as [dataString|err]; [|reflexivity].
  unfold bind at 1. unfold getMlDSA.
  destruct (mldsa_loadable w); [|reflexivity].
  unfold bind at 1.
  destruct (loadOrGenerateDilithiumKeys w) as [[keys|err] w0]; [|reflexivity].
  unfold_monad.
  destruct (Buffer_from_utf8 dataString) as [message|err]; [|reflexivity].
  destruct (Buffer_from_hex signature) as [sigBytes|err]; [|reflexivity].
  destruct (dsa_verify message sigBytes (publicKey keys)) as [b|err]; reflexivity.
Qed.

(** The verifier answers [false] to every payload whose canonical bytes
    have not the length of a signature, whatever the signature and the
    state of the key store: those bytes are what it hands to the library
    as the signature. *)
Lemma verifySignature_refuses (n : nat) (Laws : SignatureLaws L n)
    (data signature : value) (w : World) :
  (forall msg, payload_bytes data = Ok msg -> length msg <> n) ->
  fst (verifySignature (VObj [("data", data); ("signature", signature)]) w) = Ok false.
Proof.
  unfold payload_bytes. rewrite verifySignature_unfold.
  destruct (canonical_value data) as [dataString|err]; [|reflexivity].
  intros Hlen.
  destruct (mldsa_loadable w); [|reflexivity].
  destruct (loadOrGenerateDilithiumKeys w) as [[keys|err] w0]; [|reflexivity].
  destruct (Buffer_from_utf8 dataString) as [message|err]; [|reflexivity].
  destruct (Buffer_from_hex signature) as [sigBytes|err]; [|reflexivity].
  destruct (dsa_verify message sigBytes (publicKey keys)) as [[|]|err] eqn:Hv;
    [exfalso|reflexivity|reflexivity].
  exact (Hlen message eq_refl (dsa_verify_length n Laws _ _ _ Hv)).
Qed.

(** X8. The verifier looks at a payload only through its canonical bytes,
    not its type: two payloads with the same canonical bytes get the same
    verdict, and leave the same state, for every signature. So an object
    and the string that holds its JSON text cannot be told apart by a
    signature. *)
Theorem verdict_depends_on_canonical_bytes (p p' signature : value)
    (msg : list byte) (w : World) :
  payload_bytes p = Ok msg ->
  payload_bytes p' = Ok msg ->
  verifySignature (VObj [("data", p'); ("signature", signature)]) w
  = verifySignature (VObj [("data", p); ("signature", signature)]) w.
Proof.
  unfold payload_bytes. rewrite !verifySignature_unfold.
  destruct (canonical_value p) as [ds|?]; [|discriminate].
  destruct (canonical_value p') as [ds'|?]; [|discriminate].
  intros -> ->. reflexivity.
Qed.

(** X9. The verifier reads the signature string through Node's lenient
    hex decoding only. Two signature strings that decode to the same
    bytes get the same verdict, and whatever follows a signature's hex
    digits, from the first character pair that is not hex, is ignored. *)
Theorem signature_string_is_read_leniently (data : value) (w : World) :
  (forall h h', hex_decode h = hex_decode h' ->
     verifySignature (signed_package data h) w
     = verifySignature (signed_package data h') w) /\
  (forall bs junk, hex_decode junk = [] ->
     verifySignature (signed_package data (hex_encode bs +:+ junk)) w
     = verifySignature (signed_package data (hex_encode bs)) w).
Proof.
  split.
  - intros h h'. apply verifySignature_hex.
  - intros bs junk Hj. apply verifySignature_hex.
    now rewrite hex_decode_app, Hj, app_nil_r, hex_decode_encode.
Qed.

End SignerMore.

(** ** The plugin, further *)

Section PluginMore.
Context `{L : Library}.


(** Once the key pair is on disk, a save leaves the key files alone. *)
Lemma preSave_frame (fields : list string) :
  forall (d d' : Doc) (r : option exn) (w w' : World) (kp : KeyPair),
    store_holds Kyber kp w ->
    preSave fields d w = ((d', r), w') ->
    files w' = files w /\ mlkem_loadable w' = mlkem_loadable w.
Proof.
  induction fields as [|g rest IH]; intros d d' r w w' kp Hs H; cbn [preSave] in H.
  - injection H as _ _ <-. auto.
  - destruct (negb (isModified d g)); [exact (IH _ _ _ _ _ kp Hs H)|].
    destruct (is_nullish (get_path d g)); [exact (IH _ _ _ _ _ kp Hs H)|].
    destruct (encryptData (get_path d g) w) as [[e|err] w1] eqn:Henc.
    + destruct (encrypt_frame _ kp w w1 e Hs Henc) as [Hf Hm].
      destruct (IH _ _ _ _ _ kp (store_holds_files _ _ w w1 Hf Hs) H) as [Hf' Hm'].
      split; congruence.
    + injection H as _ _ <-. cbn.
      pose proof (load_store_holds Kyber kp w Hs) as Hl. cbn [loadOrGenerate] in Hl.
      revert Henc. unfold encryptData. unfold try_catch, mbind, M_bind.
      unfold bind at 1. rewrite canonical_run.
      destruct (canonical_value (get_path d g)) as [ds|?];
        [|unfold_monad; intros [= _ <-]; auto].
      unfold bind at 1. unfold getMlKEM.
      destruct (mlkem_loadable w) eqn:Hm; [|unfold_monad; intros [= _ <-]; auto].
      unfold bind at 1. rewrite Hl. unfold_monad.
      intros Henc. repeat case_match; simplify_eq; cbn; auto.
Qed.


(** The error a save hands to [next], and where it came from. *)
Lemma preSave_failure (fields : list string) :
  forall (d d' : Doc) (err : exn) (w w' : World),
    preSave fields d w = ((d', Some err), w') ->
    err = Error "Failed to encrypt data" /\
    exists f wi wj,
      f ∈ fields /\ isModified d f = true /\ is_nullish (get_path d f) = false /\
      encryptData (get_path d f) wi = (Throw err, wj) /\
      w' = logged ("Error encrypting field " +:+ f +:+ ":") wj.
Proof.
  induction fields as [|g rest IH]; intros d d' err w w' H; cbn [preSave] in H.
  - discriminate.
  - destruct (isModified d g) eqn:Hmod; cbn [negb] in H.
    2:{ destruct (IH _ _ _ _ _ H) as (He & f & wi & wj & Hin & Hrest).
        split; [exact He|]. exists f, wi, wj. split; [now right|exact Hrest]. }
    destruct (is_nullish (get_path d g)) eqn:Hnull.
    { destruct (IH _ _ _ _ _ H) as (He & f & wi & wj & Hin & Hrest).
      split; [exact He|]. exists f, wi, wj. split; [now right|exact Hrest]. }
    destruct (encryptData (get_path d g) w) as [[e|err0] w1] eqn:Henc.
    + destruct (IH _ _ _ _ _ H) as (He & f & wi & wj & Hin & Hrest).
      split; [exact He|]. exists f, wi, wj. split; [now right|exact Hrest].
    + injection H as _ <- <-. split.
      * exact (catch_rethrows _ _ _ _ _ _ Henc).
      * exists g, w, w1. split; [now left|]. auto.
Qed.

(** X10. The pre-save hook never touches the document's own paths: the
    plaintext of every declared field, encrypted or not, is still in the
    document that goes on to be persisted, and so are the modified marks.
    The envelope is stored beside the value, not in its place. *)
Theorem presave_keeps_plaintext (fields : list string) (d d' : Doc)
    (r : option exn) (w w' : World) :
  preSave fields d w = ((d', r), w') ->
  paths d' = paths d /\ modifiedPaths d' = modifiedPaths d /\
  forall f, get_path d' f = get_path d f.
Proof.
  intros H. destruct (preSave_spec fields d d' r w w' H) as (Hp & Hm & _).
  split; [exact Hp|]. split; [exact Hm|].
  intros f. unfold get_path. now rewrite Hp.
Qed.

(** X11. When the pre-save hook ends in [next(error)], the error is the
    codec's [Failed to encrypt data], it comes from encrypting a declared
    field that was modified and holds a value, and the hook's last act
    was the console line naming that field. *)
Theorem presave_failure_is_an_encryption_failure (fields : list string) (d d' : Doc)
    (err : exn) (w w' : World) :
  preSave fields d w = ((d', Some err), w') ->
  err = Error "Failed to encrypt data" /\
  exists f wi wj,
    f ∈ fields /\ isModified d f = true /\ is_nullish (get_path d f) = false /\
    encryptData (get_path d f) wi = (Throw err, wj) /\
    w' = logged ("Error encrypting field " +:+ f +:+ ":") wj.
Proof. apply preSave_failure. Qed.


Lemma decryptField_no_envelope (fields : list string) (d : Doc) (f : string) (w : World) :
  f ∈ fields -> no_envelope d f ->
  decryptField fields d f w = (Ok (get_path d f), w).
Proof.
  intros Hin Hno. unfold decryptField, no_envelope in *.
  rewrite bool_decide_eq_true_2 by exact Hin. cbn [negb].
  rewrite Hno. reflexivity.
Qed.

Lemma decryptFields_from_plain (fields : list string) (d : Doc) (fs : list string) :
  forall (acc : gmap string value) (w : World),
    (forall f, f ∈ fs -> f ∈ fields /\ no_envelope d f) ->
    exists obj,
      decryptFields_from fields d fs acc w = (Ok obj, w) /\
      (forall f, f ∈ fs -> obj !! f = Some (get_path d f)) /\
      (forall f, f ∉ fs -> obj !! f = acc !! f).
Proof.
  induction fs as [|g rest IH]; intros acc w Hall; cbn [decryptFields_from].
  - exists acc. split; [reflexivity|]. split; [|reflexivity].
    intros f Hin. inversion Hin.
  - destruct (Hall g) as [Hg Hno]; [now left|].
    unfold mbind, M_bind, bind, try_catch.
    rewrite (decryptField_no_envelope fields d g w Hg Hno).
    destruct (IH (<[g := get_path d g]> acc) w) as (obj & Hrun & Hin & Hout).
    { intros f Hf. apply Hall. now right. }
    exists obj. split; [exact Hrun|]. split.
    + intros f Hf. destruct (decide (f ∈ rest)) as [Hr|Hr]; [now apply Hin|].
      apply elem_of_cons in Hf as [->|Hf]; [|contradiction].
      rewrite Hout by exact Hr. apply lookup_insert_eq.
    + intros f Hnin. rewrite Hout by (intros ?; apply Hnin; now right).
      apply lookup_insert_ne. intros ->. apply Hnin. now left.
Qed.

(** X13. Documents without envelopes pass through. When no declared field
    has a usable stored envelope (a part is missing or empty, as in
    records written before encryption), [decryptFields] returns exactly
    the declared fields with the document's own values, and does nothing
    else: no key is loaded or generated and nothing is logged. *)
Theorem plain_documents_pass_through (fields : list string) (d : Doc) (w : World) :
  (forall f, f ∈ fields -> no_envelope d f) ->
  exists obj,
    decryptFields fields d w = (Ok obj, w) /\
    (forall f, f ∈ fields -> obj !! f = Some (get_path d f)) /\
    (forall f, f ∉ fields -> obj !! f = None).
Proof.
  intros Hall.
  destruct (decryptFields_from_plain fields d fields ∅ w) as (obj & Hrun & Hin & Hout).
  { intros f Hf. split; [exact Hf|now apply Hall]. }
  exists obj. split; [exact Hrun|]. split; [exact Hin|].
  intros f Hf. rewrite Hout by exact Hf. apply lookup_empty.
Qed.

Lemma toObject_other (d : Doc) (k : string) :
  k <> "_encrypted" -> k <> "_encryptedCiphers" -> k <> "_encryptedIVs" ->
  toObject d !! k = paths d !! k.
Proof.
  intros H1 H2 H3. unfold toObject, with_map.
  destruct (_encrypted d), (_encryptedCiphers d), (_encryptedIVs d);
    repeat (rewrite lookup_insert_ne by congruence); reflexivity.
Qed.

Lemma userFields_kept (f : string) :
  f ∈ userFields ->
  f <> "password" /\ f <> "_encryptedIVs" /\ f <> "_encryptedCiphers" /\ f <> "_encrypted".
Proof.
  unfold userFields. intros Hf.
  repeat (apply elem_of_cons in Hf as [->|Hf]);
    [repeat split; discriminate ..|inversion Hf].
Qed.

Lemma batchFields_kept (f : string) :
  f ∈ batchFields ->
  f <> "_encryptedIVs" /\ f <> "_encryptedCiphers" /\ f <> "_encrypted".
Proof.
  unfold batchFields. intros Hf.
  repeat (apply elem_of_cons in Hf as [->|Hf]);
    [repeat split; discriminate ..|inversion Hf].
Qed.

(** X14. What the safe projections return. With the plugin's
    [decryptFields] as the method, [toSafeJSON] never throws and never
    takes its catch branch, and it does nothing after [decryptFields] but
    build the object. Every declared field is in the result with the
    outcome of its [decryptField] call in that run (the value the call
    returned, or the document's own value where it threw); with the key
    pair on disk that is the outcome of [decryptField] for the field
    alone. Every other path of the document, apart from the three
    envelope maps (and [password] for a user), is returned as it is. *)
Theorem toSafeJSON_returns_the_rest (d : Doc) (w : World) :
  (exists user,
     userSchema_toSafeJSON (decryptFields userFields) d w
     = (Ok user, world_after userFields d userFields w) /\
     (forall pre f post, userFields = (pre ++ f :: post)%list -> f ∉ post ->
        user !! f = Some (field_outcome userFields d f
                            (world_after userFields d pre w))) /\
     (forall kp, store_holds Kyber kp w -> mlkem_loadable w = true ->
        forall f, f ∈ userFields ->
          user !! f = Some (field_outcome userFields d f w)) /\
     (forall k, k ∉ userFields ->
        k ∉ ["_encrypted"; "_encryptedCiphers"; "_encryptedIVs"; "password"] ->
        user !! k = paths d !! k)) /\
  (exists batch,
     batchSchema_toSafeJSON (decryptFields batchFields) d w
     = (Ok batch, world_after batchFields d batchFields w) /\
     (forall pre f post, batchFields = (pre ++ f :: post)%list -> f ∉ post ->
        batch !! f = Some (field_outcome batchFields d f
                             (world_after batchFields d pre w))) /\
     (forall kp, store_holds Kyber kp w -> mlkem_loadable w = true ->
        forall f, f ∈ batchFields ->
          batch !! f = Some (field_outcome batchFields d f w)) /\
     (forall k, k ∉ batchFields ->
        k ∉ ["_encrypted"; "_encryptedCiphers"; "_encryptedIVs"] ->
        batch !! k = paths d !! k)).
Proof.
  split.
  - destruct (decryptFields_spec userFields d w) as (obj & Hrun & Hout & Hin & Hsteady).
    exists (delete "password" (delete "_encryptedIVs" (delete "_encryptedCiphers"
              (delete "_encrypted" (Object_assign (toObject d) obj))))).
    assert (Hdeclared : forall f v, f ∈ userFields -> obj !! f = Some v ->
              delete "password" (delete "_encryptedIVs" (delete "_encryptedCiphers"
                (delete "_encrypted" (Object_assign (toObject d) obj)))) !! f = Some v).
    { intros f v Hf Hv. destruct (userFields_kept f Hf) as (N1 & N2 & N3 & N4).
      rewrite !lookup_delete_ne by congruence.
      unfold Object_assign. now apply lookup_union_Some_l. }
    split; [|split; [|split]].
    + unfold userSchema_toSafeJSON, try_catch, mbind, M_bind, bind.
      rewrite Hrun. reflexivity.
    + intros pre f post Heq Hpost. apply Hdeclared; [|now apply (Hin pre f post)].
      rewrite Heq. apply elem_of_app. right. now left.
    + intros kp Hs Hm f Hf. apply Hdeclared; [exact Hf|now apply (Hsteady kp)].
    + intros k Hk Hk2.
      assert (Hnot : k <> "password" /\ k <> "_encryptedIVs" /\
                     k <> "_encryptedCiphers" /\ k <> "_encrypted")
        by (repeat split; intros ->; apply Hk2; repeat constructor).
      destruct Hnot as (N1 & N2 & N3 & N4).
      rewrite !lookup_delete_ne by congruence.
      unfold Object_assign. rewrite lookup_union_r.
      * apply toObject_other; assumption.
      * exact (Hout k Hk).
  - destruct (decryptFields_spec batchFields d w) as (obj & Hrun & Hout & Hin & Hsteady).
    exists (delete "_encryptedIVs" (delete "_encryptedCiphers"
              (delete "_encrypted" (Object_assign (toObject d) obj)))).
    assert (Hdeclared : forall f v, f ∈ batchFields -> obj !! f = Some v ->
              delete "_encryptedIVs" (delete "_encryptedCiphers"
                (delete "_encrypted" (Object_assign (toObject d) obj))) !! f = Some v).
    { intros f v Hf Hv. destruct (batchFields_kept f Hf) as (N2 & N3 & N4).
      rewrite !lookup_delete_ne by congruence.
      unfold Object_assign. now apply lookup_union_Some_l. }
    split; [|split; [|split]].
    + unfold batchSchema_toSafeJSON, try_catch, mbind, M_bind, bind.
      rewrite Hrun. reflexivity.
    + intros pre f post Heq Hpost. apply Hdeclared; [|now apply (Hin pre f post)].
      rewrite Heq. apply elem_of_app. right. now left.
    + intros kp Hs Hm f Hf. apply Hdeclared; [exact Hf|now apply (Hsteady kp)].
    + intros k Hk Hk2.
      assert (Hnot : k <> "_encryptedIVs" /\
                     k <> "_encryptedCiphers" /\ k <> "_encrypted")
        by (repeat split; intros ->; apply Hk2; repeat constructor).
      destruct Hnot as (N2 & N3 & N4).
      rewrite !lookup_delete_ne by congruence.
      unfold Object_assign. rewrite lookup_union_r.
      * apply toObject_other; assumption.
      * exact (Hout k Hk).
Qed.

End PluginMore.

(** ** Request authentication *)

Lemma drop_prefix_app (p s : string) : drop_prefix p (p +:+ s) = Some s.
Proof.
  induction p as [|a p IH]; [now destruct s|].
  change (String a p +:+ s) with (String a (p +:+ s)). cbn [drop_prefix].
  now rewrite Ascii.eqb_refl.
Qed.

Lemma drop_prefix_Some (p : string) :
  forall s r, drop_prefix p s = Some r -> s = p +:+ r.
Proof.
  induction p as [|a p IH]; intros s r H.
  - destruct s; cbn in H; now injection H as <-.
  - destruct s as [|b s]; cbn [drop_prefix] in H; [discriminate|].
    destruct (Ascii.eqb a b) eqn:E; [|discriminate].
    apply Ascii.eqb_eq in E as ->.
    change (String b p +:+ r) with (String b (p +:+ r)). f_equal. now apply IH.
Qed.

Lemma remove_first_prefix (p s : string) : remove_first p (p +:+ s) = s.
Proof.
  destruct (p +:+ s) eqn:E; cbn [remove_first];
    rewrite <- E, drop_prefix_app; reflexivity.
Qed.

Lemma remove_first_absent (p : string) :
  forall s, occurs p s = false -> remove_first p s = s.
Proof.
  induction s as [|c s IH]; intros Hno; cbn [remove_first occurs] in *.
  - destruct (drop_prefix p ""); [discriminate|reflexivity].
  - destruct (drop_prefix p (String c s)); [discriminate|].
    f_equal. now apply IH.
Qed.

Lemma truthy_Some (o : option string) :
  truthy o = true -> exists s, o = Some s /\ s <> "".
Proof.
  destruct o as [[|c s]|]; cbn; try discriminate.
  intros _. eexists. split; [reflexivity|discriminate].
Qed.

Lemma truthy_nonempty (s : string) : s <> "" -> truthy (Some s) = true.
Proof. destruct s; [contradiction|reflexivity]. Qed.

Section MiddlewareFacts.
Context `{L : Library} `{W : Web}.

Lemma verifySignature_total (pkg : value) (w : World) :
  exists b w', verifySignature pkg w = (Ok b, w').
Proof.
  unfold verifySignature, try_catch.
  match goal with |- context [match ?m w with _ => _ end] => destruct (m w) as [[b|e] w1] end.
  - eauto.
  - unfold_monad. eauto.
Qed.

(** The middleware, once the token is known. *)
Lemma authMiddleware_run (req : Request) (h : string) (w : World) :
  req_header req "Authorization" = Some h ->
  remove_first "Bearer " h <> "" ->
  authMiddleware req w =
    match jwt_verify (remove_first "Bearer " h) JWT_SECRET with
    | Throw _ =>
        (Ok (Respond 401 "Token is not valid"), logged "Auth middleware error:" w)
    | Ok decoded =>
        if pqc_enabled && truthy (req_header req "X-PQC-Signature")
        then
          match verifySignature
                  (signed_package (VStr (remove_first "Bearer " h))
                     (default "" (req_header req "X-PQC-Signature"))) w with
          | (Ok true, w') => (Ok (Next decoded), w')
          | (Ok false, w') =>
              (Ok (Respond 401 "PQC signature verification failed"), w')
          | (Throw _, w') =>
              (Ok (Respond 401 "Token is not valid"), logged "Auth middleware error:" w')
          end
        else (Ok (Next decoded), w)
    end.
Proof.
  intros Hh Hne. unfold authMiddleware, signed_package, logged. rewrite Hh.
  cbn [fmap option_fmap option_map default].
  rewrite (truthy_nonempty _ Hne). cbn [negb]. unfold id.
  unfold try_catch, mbind, M_bind, bind, call.
  destruct (jwt_verify (remove_first "Bearer " h) JWT_SECRET) as [decoded|err];
    [|reflexivity].
  destruct (pqc_enabled && truthy (req_header req "X-PQC-Signature")); [|reflexivity].
  match goal with |- context [verifySignature ?p w] =>
    destruct (verifySignature p w) as [[[|]|e] w1] end; reflexivity.
Qed.

(** X15. The middleware never throws and lets a request through only when
    it is verified: it ends in [next()] only for a non-empty token that
    [jwt.verify] accepted, with the decoded payload as [req.user], and,
    if signatures are enabled and the request carries a non-empty
    [X-PQC-Signature], only when [verifySignature] returned [true] for
    that token and signature. Every other request is answered with status
    401 and one of three fixed messages. *)
Theorem auth_passes_only_verified_requests (req : Request) (w : World) :
  exists o w',
    authMiddleware req w = (Ok o, w') /\
    match o with
    | Next user =>
        exists h,
          req_header req "Authorization" = Some h /\
          remove_first "Bearer " h <> "" /\
          jwt_verify (remove_first "Bearer " h) JWT_SECRET = Ok user /\
          (pqc_enabled = true ->
           forall sig, req_header req "X-PQC-Signature" = Some sig -> sig <> "" ->
             verifySignature (signed_package (VStr (remove_first "Bearer " h)) sig) w
             = (Ok true, w'))
    | Respond status message =>
        status = 401 /\
        (message = "No token, authorization denied" \/
         message = "PQC signature verification failed" \/
         message = "Token is not valid")
    end.
Proof.
  destruct (truthy (remove_first "Bearer " <$> req_header req "Authorization")) eqn:Ht.
  2:{ exists (Respond 401 "No token, authorization denied"), w.
      unfold authMiddleware. rewrite Ht. cbn. auto. }
  destruct (req_header req "Authorization") as [h|] eqn:Hh; [|discriminate].
  cbn [fmap option_fmap option_map] in Ht.
  apply truthy_Some in Ht as (t & [= <-] & Hne).
  rewrite (authMiddleware_run req h w Hh Hne).
  destruct (jwt_verify (remove_first "Bearer " h) JWT_SECRET) as [decoded|err] eqn:Hj.
  2:{ eexists _, _. split; [reflexivity|]. cbn. auto. }
  destruct pqc_enabled eqn:Hen; cbn [andb].
  2:{ eexists _, _. split; [reflexivity|]. exists h. repeat split; auto. discriminate. }
  destruct (truthy (req_header req "X-PQC-Signature")) eqn:Hsig.
  2:{ eexists _, _. split; [reflexivity|]. exists h. repeat split; auto.
      intros _ sig Hs Hsne. rewrite Hs, (truthy_nonempty _ Hsne) in Hsig. discriminate. }
  destruct (verifySignature_total
              (signed_package (VStr (remove_first "Bearer " h))
                 (default "" (req_header req "X-PQC-Signature"))) w) as (b & w1 & Hv).
  rewrite Hv. destruct b.
  - eexists _, _. split; [reflexivity|]. exists h. repeat split; auto.
    intros _ sig Hs Hsne. rewrite Hs in Hv. exact Hv.
  - eexists _, _. split; [reflexivity|]. cbn. auto.
Qed.

(** X16. The signature is optional for the client. A request with no
    [X-PQC-Signature] header (or an empty one) is judged on its JWT
    alone, whether or not signatures are enabled: the verifier is never
    called for it. *)
Theorem auth_without_signature_header (req : Request) (h : string) (w : World) :
  req_header req "Authorization" = Some h ->
  remove_first "Bearer " h <> "" ->
  truthy (req_header req "X-PQC-Signature") = false ->
  authMiddleware req w =
    match jwt_verify (remove_first "Bearer " h) JWT_SECRET with
    | Ok decoded => (Ok (Next decoded), w)
    | Throw _ =>
        (Ok (Respond 401 "Token is not valid"), logged "Auth middleware error:" w)
    end.
Proof.
  intros Hh Hne Hsig. rewrite (authMiddleware_run req h w Hh Hne), Hsig.
  rewrite andb_false_r. reflexivity.
Qed.

(** X17. The [Bearer] scheme is not required. The token is what is left
    of the [Authorization] header after the first [Bearer ] is deleted,
    so a header that holds the bare token is treated exactly like the
    same token behind the prefix. *)
Theorem bearer_prefix_is_optional (hs : gmap string string) (t : string) (w : World) :
  occurs "Bearer " t = false ->
  authMiddleware (mkRequest (<["Authorization" := t]> hs)) w
  = authMiddleware (mkRequest (<["Authorization" := "Bearer " +:+ t]> hs)) w.
Proof.
  intros Hno. unfold authMiddleware, req_header. cbn [headers].
  rewrite !lookup_insert_eq.
  destruct (decide ("X-PQC-Signature" = "Authorization")) as [E|E]; [discriminate|].
  rewrite !(lookup_insert_ne _ "Authorization" "X-PQC-Signature") by congruence.
  cbn [fmap option_fmap option_map].
  now rewrite remove_first_prefix, (remove_first_absent "Bearer " t Hno).
Qed.

Lemma getPQCHeaders_lookup (t h : string) :
  t <> "" -> h <> "" ->
  req_header (mkRequest (getPQCHeaders (Some t) (Some h))) "Authorization"
  = Some ("Bearer " +:+ t) /\
  req_header (mkRequest (getPQCHeaders (Some t) (Some h))) "X-PQC-Signature" = Some h.
Proof.
  intros Ht Hh. unfold getPQCHeaders, req_header. cbn [headers].
  rewrite (truthy_nonempty _ Ht), (truthy_nonempty _ Hh). cbn [negb orb default].
  unfold id. split.
  - apply lookup_insert_eq.
  - rewrite lookup_insert_ne by discriminate. apply lookup_insert_eq.
Qed.

(** X18. What the server issues, it refuses once signatures are on. For
    a token that [jwt.verify] accepts and the signature [signData] made
    for it, a request carrying the headers that [getPQCHeaders] builds
    from the two is let through, with the decoded payload as [req.user],
    when signatures are not enabled; when they are, it is answered 401
    [PQC signature verification failed], because the verifier hands the
    token's bytes to the library as the signature (the token being of any
    length but a signature's). *)
Theorem issued_credentials_are_refused (n : nat) (Laws : SignatureLaws L n)
    (token : string) (user : value) (w w1 : World) (pkg : value) :
  store_ready Dilithium w ->
  signData (VStr token) w = (Ok pkg, w1) ->
  0 < n ->
  token <> "" ->
  jwt_verify token JWT_SECRET = Ok user ->
  length (utf8_encode token) <> n ->
  exists h,
    pkg = signed_package (VStr token) h /\
    fst (authMiddleware (mkRequest (getPQCHeaders (Some token) (Some h))) w1)
    = Ok (if pqc_enabled
          then Respond 401 "PQC signature verification failed"
          else Next user).
Proof.
  intros Hready Hsign Hn Ht Hj Hlen.
  destruct (signData_ok _ w w1 pkg Hsign)
    as (message & keys & w0 & rnd & signature & Hp & Hm & Hl & Hs & -> & Hfiles & Hflag).
  destruct (load_ready Dilithium w w0 keys Hready Hl) as ((seed & Hseed) & Hst & _ & Hf2).
  cbn [keygen] in Hseed.
  assert (Hsize : length signature = n).
  { apply (dsa_verify_length n Laws signature message (publicKey keys)).
    apply (dsa_complete n Laws seed _ (privateKey keys) message rnd);
      [destruct keys; exact Hseed|exact Hs]. }
  assert (Hh : hex_encode signature <> "").
  { intros E. pose proof (hex_encode_length signature) as El.
    rewrite E in El. cbn in El. lia. }
  exists (hex_encode signature). split; [reflexivity|].
  destruct (getPQCHeaders_lookup token _ Ht Hh) as [Ha Hx].
  rewrite (authMiddleware_run _ _ w1 Ha) by (now rewrite remove_first_prefix).
  rewrite remove_first_prefix, Hj, Hx, (truthy_nonempty _ Hh). cbn [default].
  unfold id. destruct pqc_enabled; cbn [andb]; [|reflexivity].
  pose proof (verifySignature_refuses n Laws (VStr token)
                (VStr (hex_encode signature)) w1) as Hv.
  unfold signed_package.
  destruct (verifySignature _ w1) as [[[|]|e] w2]; cbn [fst] in Hv |- *.
  - assert (Ok true = Ok false :> result bool); [|discriminate].
    apply Hv. intros msg [= <-]. exact Hlen.
  - reflexivity.
  - assert (Throw e = Ok false :> result bool); [|discriminate].
    apply Hv. intros msg [= <-]. exact Hlen.
Qed.

(** X19. With signatures enabled, an [X-PQC-Signature] header can only
    close the door. Whatever the signature it carries, a request with a
    non-empty signature header never reaches [next()]: it is answered 401
    (the token being of any length but a signature's), also when its
    token is a JWT the server accepts and the signature is the one the
    server issued for it. *)
Theorem signed_requests_are_refused (n : nat) (Laws : SignatureLaws L n)
    (req : Request) (h sig : string) (w : World) :
  pqc_enabled = true ->
  req_header req "Authorization" = Some h ->
  req_header req "X-PQC-Signature" = Some sig ->
  sig <> "" ->
  length (utf8_encode (remove_first "Bearer " h)) <> n ->
  exists message w',
    authMiddleware req w = (Ok (Respond 401 message), w') /\
    (message = "No token, authorization denied" \/
     message = "PQC signature verification failed" \/
     message = "Token is not valid").
Proof.
  intros Hen Hh Hsig Hne Hlen.
  destruct (decide (remove_first "Bearer " h = "")) as [He|Ht].
  { exists "No token, authorization denied", w. split; [|auto].
    unfold authMiddleware. rewrite Hh. cbn [fmap option_fmap option_map].
    rewrite He. reflexivity. }
  rewrite (authMiddleware_run req h w Hh Ht).
  destruct (jwt_verify (remove_first "Bearer " h) JWT_SECRET) as [decoded|err].
  2:{ eexists _, _. split; [reflexivity|auto]. }
  rewrite Hen, Hsig, (truthy_nonempty _ Hne). cbn [andb default]. unfold id.
  pose proof (verifySignature_refuses n Laws (VStr (remove_first "Bearer " h))
                (VStr sig) w) as Hv.
  unfold signed_package.
  destruct (verifySignature _ w) as [[[|]|e] w2]; cbn [fst] in Hv.
  - assert (Ok true = Ok false :> result bool); [|discriminate].
    apply Hv. intros msg [= <-]. exact Hlen.
  - eexists _, _. split; [reflexivity|auto].
  - eexists _, _. split; [reflexivity|auto].
Qed.

End MiddlewareFacts.

(** ** The browser's verifier *)

Section FrontendFacts.
Context `{L : Library}.

(** X20. The browser's verifier is never given a key. [AuthProvider]
    calls [initPQCrypto()] without an argument, which leaves the module's
    public key as it was; from the module's initial state the key is
    therefore still missing, and [verifySignature] answers [false] to
    every package after one warning. Whatever the key, the browser's
    [verifySignature] returns a boolean and never throws. *)
Theorem frontend_verifier_has_no_key :
  (forall pqcSignature key, AuthProvider_initPQC pqcSignature key = Ok key) /\
  (forall pkg w,
     frontend_verifySignature None pkg w
     = (Ok false, logged "PQC not initialized with public key" w)) /\
  (forall key pkg w, exists b w', frontend_verifySignature key pkg w = (Ok b, w')).
Proof.
  split; [|split].
  - intros sig key. unfold AuthProvider_initPQC, frontend_initPQCrypto.
    destruct (truthy sig); reflexivity.
  - reflexivity.
  - intros key pkg w. unfold frontend_verifySignature, try_catch.
    match goal with |- context [match ?m w with _ => _ end] =>
      destruct (m w) as [[b|e] w1] end.
    + eauto.
    + unfold_monad. eauto.
Qed.

(** X21. Given the backend's public key, the browser and the backend
    agree. Initialised with the hex of the Dilithium public key that the
    backend's store holds, the browser's [verifySignature] returns the
    same verdict as the backend's for every package. *)
Theorem frontend_agrees_with_backend (kp : KeyPair) (key0 : option (list byte))
    (w : World) :
  store_holds Dilithium kp w ->
  mldsa_loadable w = true ->
  publicKey kp <> [] ->
  frontend_initPQCrypto (VStr (hex_encode (publicKey kp))) key0 = Ok (Some (publicKey kp)) /\
  forall pkg,
    fst (frontend_verifySignature (Some (publicKey kp)) pkg w)
    = fst (verifySignature pkg w).
Proof.
  intros Hs Hm Hne. split.
  - unfold frontend_initPQCrypto.
    assert (Ht : truthy_value (VStr (hex_encode (publicKey kp))) = true)
      by (destruct (publicKey kp); [contradiction|reflexivity]).
    rewrite Ht. cbn [Buffer_from_hex]. now rewrite hex_decode_encode.
  - intros pkg. apply load_store_holds in Hs. cbn [loadOrGenerate] in Hs.
    unfold frontend_verifySignature, verifySignature.
    unfold try_catch, mbind, M_bind. unfold bind at 1 6. unfold call at 1 5.
    destruct (destructure_package pkg) as [[data signature]|err]; [|reflexivity].
    unfold bind at 1 5. rewrite canonical_run.
    destruct (canonical_value data) as [dataString|err]; [|reflexivity].
    unfold bind at 4. unfold getMlDSA. rewrite Hm.
    unfold bind at 4. rewrite Hs.
    unfold_monad.
    repeat case_match; simplify_eq; reflexivity.
Qed.

End FrontendFacts.

(** ** Passwords *)

Section PasswordFacts.
Context `{B : Bcrypt}.

(** X22. The password hook. When the password was modified and the hook
    ends in [next()], the stored password is the bcrypt hash, and
    [isValidPassword] accepts the password that was set. The hook changes
    nothing but the [password] path: every other path and every stored
    envelope is as before, and a document whose password was not
    modified, or whose hashing failed, is left exactly as it was. *)
Theorem password_hook_hashes_once (Law : BcryptLaw B) (d d' : Doc)
    (r : option exn) (w w' : World) :
  hashPassword d w = ((d', r), w') ->
  (isModified d "password" = true -> r = None ->
   isValidPassword d' (get_path d "password") w' = (Ok true, w') /\
   exists hash, get_path d' "password" = VStr hash) /\
  (isModified d "password" = false -> d' = d /\ r = None /\ w' = w) /\
  (forall err, r = Some err -> d' = d) /\
  (forall k, k <> "password" -> get_path d' k = get_path d k) /\
  (forall f, stored_parts d' f = stored_parts d f).
Proof.
  unfold hashPassword. intros H.
  destruct (isModified d "password") eqn:Hmod; cbn [negb] in H.
  2:{ injection H as <- <- <-. repeat split; auto; discriminate. }
  unfold_monad.
  destruct (bcrypt_genSalt 10 (resize 16 x00 (rand w (tick w)))) as [salt|e1] eqn:Hsalt.
  2:{ injection H as <- <- <-. repeat split; auto; discriminate. }
  destruct (bcrypt_hash (get_path d "password") salt) as [hash|e2] eqn:Hhash.
  2:{ injection H as <- <- <-. repeat split; auto; discriminate. }
  injection H as <- <- <-. repeat split; try discriminate.
  - unfold isValidPassword, try_catch, call.
    assert (E : get_path (set_path d "password" (VStr hash)) "password" = VStr hash).
    { unfold get_path, set_path. cbn [paths]. now rewrite lookup_insert_eq. }
    now rewrite E, (Law _ _ _ Hhash).
  - exists hash. unfold get_path, set_path. cbn [paths].
    now rewrite lookup_insert_eq.
  - intros k Hk. unfold get_path, set_path. cbn [paths].
    now rewrite lookup_insert_ne by congruence.
Qed.

End PasswordFacts.

(** ** Stale envelopes and missing keys *)

Section Hazards.
Context `{L : Library}.

(** X23. Clearing a field does not clear its envelope. When a declared
    field is set to [null] or [undefined], the pre-save hook skips it and
    its old envelope stays; [decryptField] on the saved document then
    returns the value the old envelope decrypts to, not the cleared
    value. *)
Theorem cleared_field_decrypts_to_old_value (fields : list string) (d d' : Doc)
    (r : option exn) (w w' : World) (kp : KeyPair) (f : string)
    (e : Envelope) (old : value) :
  store_holds Kyber kp w ->
  mlkem_loadable w = true ->
  preSave fields d w = ((d', r), w') ->
  f ∈ fields ->
  is_nullish (get_path d f) = true ->
  stored_parts d f = (Some (encryptedData e), Some (ciphertext e), Some (iv e)) ->
  encryptedData e <> "" -> ciphertext e <> "" -> iv e <> "" ->
  open_envelope e (privateKey kp) = Ok old ->
  decryptField fields d' f w' = (Ok old, w') /\ is_nullish (get_path d' f) = true.
Proof.
  intros Hs Hm H Hin Hnull Hparts H1 H2 H3 Hopen.
  destruct (preSave_spec fields d d' r w w' H) as (Hp & _ & Hspec).
  destruct (preSave_frame fields d d' r w w' kp Hs H) as [Hfiles Hflag].
  assert (Hparts' : stored_parts d' f = stored_parts d f)
    by (apply Hspec; right; right; exact Hnull).
  rewrite Hparts in Hparts'. unfold stored_parts in Hparts'.
  injection Hparts' as E1 E2 E3. split.
  - unfold decryptField. rewrite bool_decide_eq_true_2 by exact Hin. cbn [negb].
    rewrite E1, E2, E3, !truthy_nonempty by assumption. cbn [andb negb default].
    unfold id, try_catch. cbv zeta.
    replace (mkEnvelope (ciphertext e) (encryptedData e) (iv e)) with e
      by (destruct e; reflexivity).
    rewrite (decryptData_run e kp w').
    + now rewrite Hopen.
    + apply (store_holds_files _ _ w); assumption.
    + congruence.
  - unfold get_path in *. now rewrite Hp.
Qed.

(** X24. Reading creates keys. On a machine whose Kyber key files are
    missing, a [decryptData] that returns a value has generated a new
    key pair and written it to the key files on the way; the envelope was
    opened with that new private key. *)
Theorem decrypt_without_keys_generates_them (e : Envelope) (v : value) (w w1 : World) :
  store_absent Kyber w ->
  decryptData e w = (Ok v, w1) ->
  exists kp,
    valid_pair Kyber kp /\ store_holds Kyber kp w1 /\
    open_envelope e (privateKey kp) = Ok v.
Proof.
  intros Habs Hdec.
  assert (Hready : store_ready Kyber w) by (right; exact Habs).
  revert Hdec. unfold decryptData, open_envelope. destruct e as [c dta i].
  cbn [ciphertext encryptedData iv].
  unfold try_catch, mbind, M_bind. unfold bind at 1. unfold getMlKEM.
  destruct (mlkem_loadable w) eqn:Hm; [|unfold_monad; discriminate].
  unfold bind at 1.
  destruct (loadOrGenerateKyberKeys w) as [[keys|err] w0] eqn:Hl;
    [|unfold_monad; discriminate].
  destruct (load_ready Kyber w w0 keys Hready Hl) as (Hvalid & Hs & _).
  unfold_monad. intros Hdec.
  repeat case_match; simplify_eq.
  exists keys. split; [exact Hvalid|]. split; [exact Hs|].
  now rewrite H1, H2, H3.
Qed.

End Hazards.

(** ** The further properties at work on the reference library *)

Lemma drop_prefix_app2 (p q r : string) :
  drop_prefix (p +:+ q) (p +:+ (q +:+ r)) = Some r.
Proof.
  induction p as [|a p IH]; [exact (drop_prefix_app q r)|].
  change (String a p +:+ q) with (String a (p +:+ q)).
  change (String a p +:+ (q +:+ r)) with (String a (p +:+ (q +:+ r))).
  cbn [drop_prefix]. now rewrite Ascii.eqb_refl.
Qed.

Lemma toy_bcrypt_law : BcryptLaw ToyWeb.bcrypt.
Proof.
  intros data salt hash H. cbn in H |- *.
  destruct data; try discriminate. injection H as <-.
  f_equal. apply bool_decide_eq_true_2. rewrite drop_prefix_app2. eauto.
Qed.

Section MoreExamples.
Import Toy ToyWeb.
Local Existing Instance lib.
Local Existing Instance web.
Local Existing Instance bcrypt.

Lemma envelope_shape_witness :
  exists e w1,
    encryptData (VStr "Organic Wheat") world1 = (Ok e, w1) /\
    String.length (iv e) = 32 /\
    length (hex_decode (iv e)) = 16 /\
    hex_encode (hex_decode (ciphertext e)) = ciphertext e /\
    String.length (ciphertext e) = 2 * length (hex_decode (ciphertext e)).
Proof.
  eexists _, _. split; [vm_compute; reflexivity|].
  eapply (envelope_shape (VStr "Organic Wheat") world1). vm_compute. reflexivity.
Defined.

Lemma encryptData_steady_state_witness :
  files (snd (encryptData (VStr "hello") world2)) = files world2 /\
  rand (snd (encryptData (VStr "hello") world2)) = rand world2 /\
  tick (snd (encryptData (VStr "hello") world2)) <= tick world2 + 2 /\
  match fst (encryptData (VStr "hello") world2) with
  | Ok e =>
      console (snd (encryptData (VStr "hello") world2)) = console world2 /\
      tick (snd (encryptData (VStr "hello") world2)) = tick world2 + 2 /\
      hex_decode (iv e) = resize 16 x00 (rand world2 (S (tick world2)))
  | Throw err =>
      err = Error "Failed to encrypt data" /\
      console (snd (encryptData (VStr "hello") world2))
      = (console world2 ++ ["Error encrypting data:"])%list
  end.
Proof.
  apply (encryptData_steady_state (VStr "hello") kyber_pair2 world2 _ _
           world2_holds_pair2 eq_refl).
  apply surjective_pairing.
Defined.


Lemma schemes_do_not_interfere_witness :
  files (snd (loadOrGenerate Dilithium world2)) !! private_key_path Kyber
  = files world2 !! private_key_path Kyber /\
  files (snd (loadOrGenerate Dilithium world2)) !! public_key_path Kyber
  = files world2 !! public_key_path Kyber.
Proof.
  apply (schemes_do_not_interfere Dilithium Kyber world2 _
           (fst (loadOrGenerate Dilithium world2))).
  - discriminate.
  - destruct (loadOrGenerate Dilithium world2). reflexivity.
Defined.

Lemma generation_is_not_atomic_witness :
  exists w',
    generate Kyber world_locked = (Throw (Error "Failed to generate Kyber keys"), w') /\
    content <$> (files w' !! private_key_path Kyber) = Some "0212345678" /\
    files w' !! public_key_path Kyber = Some (File "0111223344" true false).
Proof.
  apply (generation_is_not_atomic Kyber world_locked
           [x01; x12; x34; x56; x78] [x02; x12; x34; x56; x78]
           (File "0111223344" true false)); reflexivity.
Defined.

Lemma initPQCrypto_witness :
  exists w1, initPQCrypto world1 = (Ok tt, w1) /\ initPQCrypto w1 = (Ok tt, w1).
Proof.
  eexists. split; [vm_compute; reflexivity|].
  apply (initPQCrypto_settles_the_store world1).
  - intros s. split; intros f Hf; destruct s; discriminate Hf.
  - vm_compute. reflexivity.
Defined.

Lemma verdict_witness :
  verifySignature
    (VObj [("data", VStr (Toy.print order)); ("signature", VStr "a1b2c3d4e5f60708")]) world1
  = verifySignature
      (VObj [("data", order); ("signature", VStr "a1b2c3d4e5f60708")]) world1.
Proof.
  apply (verdict_depends_on_canonical_bytes order (VStr (Toy.print order))
           (VStr "a1b2c3d4e5f60708") (list_byte_of_string (Toy.print order)) world1);
    vm_compute; reflexivity.
Defined.

Lemma presave_keeps_plaintext_witness :
  get_path (fst (fst (preSave batchFields batch_doc world1))) "location"
  = get_path batch_doc "location".
Proof.
  apply (presave_keeps_plaintext batchFields batch_doc _
           (snd (fst (preSave batchFields batch_doc world1))) world1
           (snd (preSave batchFields batch_doc world1))).
  destruct (preSave batchFields batch_doc world1) as [[d' r] w']. reflexivity.
Defined.

Lemma presave_failure_witness :
  exists f wi wj,
    f ∈ userFields /\ isModified user_doc f = true /\
    is_nullish (get_path user_doc f) = false /\
    encryptData (get_path user_doc f) wi = (Throw (Error "Failed to encrypt data"), wj) /\
    snd (preSave userFields user_doc world_offline)
    = logged ("Error encrypting field " +:+ f +:+ ":") wj.
Proof.
  apply (presave_failure_is_an_encryption_failure userFields user_doc
           (fst (fst (preSave userFields user_doc world_offline)))
           (Error "Failed to encrypt data") world_offline
           (snd (preSave userFields user_doc world_offline))).
  vm_compute. reflexivity.
Defined.


Lemma plain_documents_witness :
  exists obj,
    decryptFields batchFields plain_batch world1 = (Ok obj, world1) /\
    (forall f, f ∈ batchFields -> obj !! f = Some (get_path plain_batch f)) /\
    (forall f, f ∉ batchFields -> obj !! f = None).
Proof.
  apply (plain_documents_pass_through batchFields plain_batch world1).
  intros f _. unfold no_envelope, map_get. cbn. now rewrite lookup_empty.
Defined.

Lemma auth_without_signature_witness :
  authMiddleware (mkRequest {["Authorization" := "Bearer s3cret.asha"]}) world1
  = (Ok (Next (VStr "asha")), world1).
Proof.
  rewrite (auth_without_signature_header _ "Bearer s3cret.asha" world1);
    [reflexivity|reflexivity|discriminate|reflexivity].
Defined.

Lemma bearer_prefix_witness :
  authMiddleware (mkRequest (<["Authorization" := token1]> ∅)) world1
  = authMiddleware (mkRequest (<["Authorization" := "Bearer " +:+ token1]> ∅)) world1.
Proof. apply (bearer_prefix_is_optional ∅ token1 world1). reflexivity. Defined.

Lemma issued_credentials_witness :
  exists h,
    signData (VStr token1) world1
    = (Ok (signed_package (VStr token1) h), snd (signData (VStr token1) world1)) /\
    verify_token token1 (VStr "s3cret") = Ok (VStr "asha") /\
    fst (authMiddleware (mkRequest (getPQCHeaders (Some token1) (Some h)))
           (snd (signData (VStr token1) world1)))
    = Ok (Respond 401 "PQC signature verification failed").
Proof.
  destruct (issued_credentials_are_refused signature_bytes ToyFacts.signature_laws
              token1 (VStr "asha")
              world1 (snd (signData (VStr token1) world1))
              (match fst (signData (VStr token1) world1) with
               | Ok pkg => pkg
               | Throw _ => VNull
               end)
              world1_dilithium_ready) as (h & Hpkg & Hres).
  - vm_compute. reflexivity.
  - unfold signature_bytes. lia.
  - discriminate.
  - reflexivity.
  - vm_compute. discriminate.
  - exists h. rewrite <- Hpkg. split; [vm_compute; reflexivity|].
    split; [reflexivity|exact Hres].
Defined.

Lemma signed_requests_witness :
  exists message w',
    authMiddleware
      (mkRequest (<["X-PQC-Signature" := "c0ffee"]>
                    (<["Authorization" := "Bearer s3cret.asha"]> ∅))) world1
    = (Ok (Respond 401 message), w') /\
    (message = "No token, authorization denied" \/
     message = "PQC signature verification failed" \/
     message = "Token is not valid").
Proof.
  apply (signed_requests_are_refused signature_bytes ToyFacts.signature_laws
           _ "Bearer s3cret.asha" "c0ffee" world1);
    [reflexivity|reflexivity|reflexivity|discriminate|vm_compute; discriminate].
Defined.

Lemma frontend_agrees_witness :
  exists pkg w1,
    signData (VStr token1) world1 = (Ok pkg, w1) /\
    frontend_initPQCrypto (VStr "0311223344") None = Ok (Some (publicKey dilithium_pair1)) /\
    fst (frontend_verifySignature (Some (publicKey dilithium_pair1)) pkg w1)
    = fst (verifySignature pkg w1).
Proof.
  eexists _, _. split; [vm_compute; reflexivity|].
  assert (Hs : store_holds Dilithium dilithium_pair1 (snd (signData (VStr token1) world1))).
  { split.
    - exists (File "0411223344" true true). repeat split; vm_compute; reflexivity.
    - exists (File "0311223344" true true). repeat split; vm_compute; reflexivity. }
  destruct (frontend_agrees_with_backend dilithium_pair1 None _ Hs eq_refl)
    as [Hinit Hsame]; [discriminate|].
  split; [exact Hinit|apply Hsame].
Defined.

Lemma password_hook_witness :
  isValidPassword (fst (fst (hashPassword user_doc world1))) (VStr "hunter2")
    (snd (hashPassword user_doc world1))
  = (Ok true, snd (hashPassword user_doc world1)) /\
  exists hash, get_path (fst (fst (hashPassword user_doc world1))) "password" = VStr hash.
Proof.
  apply (password_hook_hashes_once toy_bcrypt_law user_doc _
           (snd (fst (hashPassword user_doc world1))) world1 _).
  - destruct (hashPassword user_doc world1) as [[d' r] w']. reflexivity.
  - vm_compute. reflexivity.
  - vm_compute. reflexivity.
Defined.


Lemma cleared_field_witness :
  exists d1 w1 d2 w2,
    preSave batchFields (set_path plain_batch "cropHealth" (VStr "Good")) world1
      = ((d1, None), w1) /\
    preSave batchFields (set_path d1 "cropHealth" VNull) w1 = ((d2, None), w2) /\
    decryptField batchFields d2 "cropHealth" w2 = (Ok (VStr "Good"), w2) /\
    is_nullish (get_path d2 "cropHealth") = true.
Proof.
  eexists _, _, _, _.
  split; [vm_compute; reflexivity|]. split; [vm_compute; reflexivity|].
  eapply (cleared_field_decrypts_to_old_value batchFields
            (set_path
               (fst (fst (preSave batchFields
                            (set_path plain_batch "cropHealth" (VStr "Good")) world1)))
               "cropHealth" VNull)
            _ None
            (snd (preSave batchFields
                    (set_path plain_batch "cropHealth" (VStr "Good")) world1))
            _ kyber_pair1 "cropHealth"
            (match stored_parts
                     (fst (fst (preSave batchFields
                                  (set_path plain_batch "cropHealth" (VStr "Good")) world1)))
                     "cropHealth" with
             | (Some a, Some b, Some c) => mkEnvelope b a c
             | _ => mkEnvelope "" "" ""
             end)).
  - split.
    + exists (File "0211223344" true true). repeat split; vm_compute; reflexivity.
    + exists (File "0111223344" true true). repeat split; vm_compute; reflexivity.
  - reflexivity.
  - vm_compute. reflexivity.
  - vm_compute. repeat constructor.
  - vm_compute. reflexivity.
  - vm_compute. reflexivity.
  - vm_compute. discriminate.
  - vm_compute. discriminate.
  - vm_compute. discriminate.
  - vm_compute. reflexivity.
Defined.

Lemma decrypt_without_keys_witness :
  exists v w1 kp,
    decryptData hello_envelope world1 = (Ok v, w1) /\
    valid_pair Kyber kp /\ store_holds Kyber kp w1 /\
    open_envelope hello_envelope (privateKey kp) = Ok v.
Proof.
  destruct (decrypt_without_keys_generates_them hello_envelope
              (match fst (decryptData hello_envelope world1) with
               | Ok v => v
               | Throw _ => VNull
               end)
              world1 (snd (decryptData hello_envelope world1)))
    as (kp & Hv & Hs & Ho).
  - split; reflexivity.
  - vm_compute. reflexivity.
  - eexists _, _, kp. split; [vm_compute; reflexivity|]. auto.
Defined.

End MoreExamples.
